(** * Load-flow solvers: a shallow embedding of [algorithms/*.py]

    The three solver classes of the repository ([NRLoadFlow], [GaussSeidel],
    [FastDecoupled]) are embedded as Rocq functions.

    - A Python/numpy [float] is an IEEE-754 binary64 value: [PrimFloat.float].
    - A complex number is a pair of floats.  Addition, subtraction and
      conjugation are component-wise; every other numeric library routine
      (complex product and quotient, [abs], [np.angle], [np.exp], reductions,
      LAPACK) is a field of the class [Runtime]: the source calls them, it does
      not define them.  All theorems hold for every [Runtime].
    - Exceptions are values of [exn]; a call returns a [result].
    - The id and type columns of the input tables hold integral values; they
      are kept as [Z], so [int(line[0]-1)] is [line_from l - 1] and
      [bus_data[:,1].astype(int)] is [fmap bus_type].
    - [print] output is not modelled; [warnings.warn] calls are, as a list. *)

From Stdlib Require Import ZArith List Bool Lia Floats Strings.String.
From stdpp Require Import base option list pretty.

Set Default Proof Using "Type".
#[local] Set Warnings "-inexact-float".
Local Open Scope Z_scope.

(* ------------------------------------------------------------------ *)
(** ** Numbers *)

Record complex : Type := Cplx { re : float; im : float }.

Definition c0 : complex := Cplx 0 0.
Definition j1 : complex := Cplx 0 1.                     (* the literal 1j *)
Definition of_real (x : float) : complex := Cplx x 0.    (* real -> complex128 *)

Definition cadd (a b : complex) : complex :=
  Cplx (re a + re b)%float (im a + im b)%float.
Definition csub (a b : complex) : complex :=
  Cplx (re a - re b)%float (im a - im b)%float.
Definition conjugate (a : complex) : complex := Cplx (re a) (- im a)%float.

#[global] Instance complex_inhabited : Inhabited complex := populate c0.
#[global] Instance float_inhabited : Inhabited float := populate 0%float.

(** Python's built-in [max(a, b)]: the later argument wins only when it is
    strictly greater. *)
Definition py_max (a b : float) : float := if (a <? b)%float then b else a.

(** [np.clip(x, lo, hi)] is [minimum(maximum(x, lo), hi)]; both propagate NaN. *)
Definition is_nan (x : float) : bool := negb (x =? x)%float.
Definition np_maximum (a b : float) : float :=
  if is_nan a then a else if is_nan b then b else if (a <? b)%float then b else a.
Definition np_minimum (a b : float) : float :=
  if is_nan a then a else if is_nan b then b else if (b <? a)%float then b else a.
Definition np_clip (x lo hi : float) : float := np_minimum (np_maximum x lo) hi.

(** The numeric routines the solvers call but do not define. *)
Class Runtime : Type := {
  py_cquot : complex -> complex -> complex;   (* CPython complex / complex, divisor <> 0 *)
  np_cmul : complex -> complex -> complex;    (* numpy complex128 product *)
  np_cdiv : complex -> complex -> complex;    (* numpy complex128 quotient (never raises) *)
  np_cabs : complex -> float;                 (* abs / np.abs of a complex *)
  np_angle : complex -> float;                (* np.angle *)
  np_cexp : complex -> complex;               (* np.exp of a complex *)
  np_cos : float -> float;
  np_sin : float -> float;
  np_radians : float -> float;
  np_degrees : float -> float;
  np_sum : list float -> float;               (* np.sum along one row *)
  np_mean : list float -> float;
  np_max : list float -> float;               (* np.max of a non-empty array *)
  np_min : list float -> float;
  np_dot : list complex -> list complex -> complex;
  linalg_cond : list (list float) -> option float;     (* None: LinAlgError *)
  linalg_solve : list (list float) -> list float -> option (list float);
  format_fixed : nat -> float -> string       (* format(x, ".Nf") *)
}.

(* ------------------------------------------------------------------ *)
(** ** Exceptions *)

Inductive exn : Type :=
| IndexError
| ZeroDivisionError
| UnboundLocalError
| AttributeError
| RuntimeError (cause : exn).

Inductive result (A : Type) : Type :=
| Ok (a : A)
| Raise (e : exn).
Arguments Ok {A} a.
Arguments Raise {A} e.

Definition bind {A B} (m : result A) (k : A -> result B) : result B :=
  match m with Ok a => k a | Raise e => Raise e end.

Notation "x <- m ;; k" := (bind m (fun x => k))
  (at level 100, m at next level, right associativity).

(** A [for] loop whose body may raise. *)
Fixpoint foldM {A S} (f : S -> A -> result S) (l : list A) (s : S) : result S :=
  match l with
  | [] => Ok s
  | a :: l' => s' <- f s a ;; foldM f l' s'
  end.

(* ------------------------------------------------------------------ *)
(** ** Input tables *)

(** One row of [line_data]: from-id, to-id, r, x, b. *)
Record Line : Type := {
  line_from : Z;
  line_to : Z;
  line_r : float;
  line_x : float;
  line_b : float
}.

(** One row of [bus_data]: id, type code, |V|, angle (degrees), PG, QG, PL,
    QL and, when the table has at least ten columns, Qmin and Qmax. *)
Record Bus : Type := {
  bus_id : Z;
  bus_type : Z;
  bus_vm : float;
  bus_va : float;
  bus_pg : float;
  bus_qg : float;
  bus_pl : float;
  bus_ql : float;
  bus_qmin : float;
  bus_qmax : float
}.

(* ------------------------------------------------------------------ *)
(** ** Dense complex matrices, indexed as numpy does *)

Abbreviation matrix := (list (list complex)).

(** [np.zeros((nb, nb), dtype=complex)] *)
Definition zeros (nb : nat) : matrix := replicate nb (replicate nb c0).

(** A Python index into an axis of length [n]: negative indices count from
    the end, anything outside [-n, n) is an IndexError. *)
Definition py_index (n : nat) (k : Z) : option nat :=
  if (0 <=? k) && (k <? Z.of_nat n) then Some (Z.to_nat k)
  else if (- Z.of_nat n <=? k) && (k <? 0) then Some (Z.to_nat (k + Z.of_nat n))
  else None.

Definition mget (Y : matrix) (a b : nat) : option complex :=
  row ← Y !! a; row !! b.

(** Entry read that is in range by construction ([a], [b] below the size). *)
Definition entry (Y : matrix) (a b : nat) : complex := (Y !!! a) !!! b.

Definition mupd (Y : matrix) (a b : nat) (f : complex -> complex) : matrix :=
  alter (alter f b) a Y.

(** [Y[i, j] = f(Y[i, j])] on an [nb] x [nb] array. *)
Definition mat_update (nb : nat) (Y : matrix) (i j : Z)
    (f : complex -> complex) : result matrix :=
  match py_index nb i, py_index nb j with
  | Some a, Some b => Ok (mupd Y a b f)
  | _, _ => Raise IndexError
  end.

Definition eps_z : float := 1e-12%float.

(** The four accumulations shared by both builders. *)
Definition stamp_line (nb : nat) (Y : matrix) (i j : Z) (y b_shunt : complex)
    : result matrix :=
  Y1 <- mat_update nb Y i i (fun v => cadd v (cadd y b_shunt)) ;;
  Y2 <- mat_update nb Y1 j j (fun v => cadd v (cadd y b_shunt)) ;;
  Y3 <- mat_update nb Y2 i j (fun v => csub v y) ;;
  mat_update nb Y3 j i (fun v => csub v y).

(** CPython raises ZeroDivisionError for [a / b] exactly when
    [|b.real| >= |b.imag|] and [|b.real| == 0]. *)
Definition py_zero_divisor (b : complex) : bool :=
  (PrimFloat.abs (im b) <=? PrimFloat.abs (re b))%float
  && (PrimFloat.abs (re b) =? 0)%float.

(** A [for ... in its] loop whose body may [break]. *)
Inductive flow : Type := Continue | Break.

Fixpoint for_loop {S} (body : nat -> S -> S * flow) (its : list nat) (s : S) : S :=
  match its with
  | [] => s
  | it :: rest =>
    match body it s with
    | (s', Break) => s'
    | (s', Continue) => for_loop body rest s'
    end
  end.

(** [range(max_iter)] for a Python int. *)
Definition py_range (n : Z) : list nat := seq 0 (Z.to_nat n).

(** One record of an iteration trace: a Python dict, as its items in
    insertion order. *)
Inductive pyval : Type :=
| PInt (n : Z)
| PFloat (x : float)
| PStr (s : string).

Definition IterRecord : Type := list (string * pyval).

(** [complex(0.95, -0.05)], the starting value of the unknown voltages. *)
Definition flat_start : complex := Cplx 0.95 (-0.05).

(** [enumerate(l)] *)
Definition enumerate {A} (l : list A) : list (nat * A) := imap pair l.

Section Builders.
Context {R : Runtime}.

(** [f"{abs(v):.4f}∠{np.degrees(np.angle(v)):.2f}°"] *)
Definition polar_string (v : complex) : string :=
  format_fixed 4 (np_cabs v) +:+ "∠"
  +:+ format_fixed 2 (np_degrees (np_angle v)) +:+ "°".

(** [{f"V{i+1} (pu)": polar_string(V[i]) for i in range(len(V))}] *)
Definition voltage_items (V : list complex) : IterRecord :=
  imap (fun i v => ("V" +:+ pretty (i + 1)%nat +:+ " (pu)", PStr (polar_string v))) V.

(** [1 / z] for a Python [complex] [z]. *)
Definition py_recip (z : complex) : result complex :=
  if py_zero_divisor z then Raise ZeroDivisionError
  else Ok (py_cquot (of_real 1) z).

(** [1j * b / 2] *)
Definition half_shunt (b : float) : complex :=
  np_cdiv (np_cmul j1 (of_real b)) (of_real 2).
End Builders.

(* ------------------------------------------------------------------ *)
(** ** [newton_raphson.py]: class NRLoadFlow *)

Module NRLoadFlow.
Section Defs.
Context {R : Runtime}.

(** [warnings.warn(f"Zero impedance line between buses {i+1} and {j+1}")] *)
Inductive warning : Type := ZeroImpedanceLine (bus_i bus_j : Z).

Definition near_zero (r x : float) : bool :=
  (PrimFloat.abs r <? eps_z)%float && (PrimFloat.abs x <? eps_z)%float.

(** Body of the [for line in self.line_data] loop of [build_ybus].  The bus
    ids are the integers the float columns hold; [int(line[0] - 1)] is
    [line_from l - 1] for ids within 2^53 in magnitude, where the float
    subtraction is exact.  Beyond that range both are out of the range of
    any array, so the exceptions are the same, and only the numbers the
    warning names can differ. *)
Definition build_ybus_line (nb : nat) (acc : matrix * list warning) (l : Line)
    : result (matrix * list warning) :=
  let '(Y, ws) := acc in
  let i := line_from l - 1 in
  let j := line_to l - 1 in
  if near_zero (line_r l) (line_x l) then
    Ok (Y, ws ++ [ZeroImpedanceLine (i + 1) (j + 1)])
  else
    y <- py_recip (Cplx (line_r l) (line_x l)) ;;
    Y' <- stamp_line nb Y i j y (half_shunt (line_b l)) ;;
    Ok (Y', ws).

(** [build_ybus]; the dense array and the sparse [lil_matrix] used above 50
    buses hold the same entries and are modelled once. *)
Definition build_ybus (nb : nat) (lines : list Line)
    : result (matrix * list warning) :=
  foldM (build_ybus_line nb) lines (zeros nb, []).

(** [bus_data[i, 2] * np.exp(1j * np.radians(bus_data[i, 3]))] *)
Definition slack_voltage (b : Bus) : complex :=
  np_cmul (of_real (bus_vm b))
          (np_cexp (np_cmul j1 (of_real (np_radians (bus_va b))))).

Definition initial_voltage (b : Bus) : complex :=
  if bus_type b =? 1 then slack_voltage b
  else if bus_type b =? 2 then Cplx (bus_vm b) 0
  else flat_start.

(** [extract_bus_params]: (types, V, P_spec, Q_spec) *)
Definition extract_bus_params (bus_data : list Bus)
    : list Z * list complex * list float * list float :=
  (fmap bus_type bus_data,
   fmap initial_voltage bus_data,
   fmap (fun b => (bus_pg b - bus_pl b)%float) bus_data,
   fmap (fun b => (bus_qg b - bus_ql b)%float) bus_data).

(** One entry of [V_mag_i * V_mag_j * Y_mag * f(angle_diff)]. *)
Definition power_term (f : float -> float) (vi vj yij : complex) : float :=
  (np_cabs vi * np_cabs vj * np_cabs yij
   * f (np_angle yij + np_angle vj - np_angle vi))%float.

Definition power_terms (f : float -> float) (Y : matrix) (V : list complex)
    : list (list float) :=
  zip_with (fun row vi => zip_with (fun yij vj => power_term f vi vj yij) row V) Y V.

(** [power_calculation_vectorized]: (P, Q) *)
Definition power_calculation_vectorized (Y : matrix) (V : list complex)
    : list float * list float :=
  (fmap np_sum (power_terms np_cos Y V),
   fmap (fun row => (- np_sum row)%float) (power_terms np_sin Y V)).

(** [[i for i, t in enumerate(types) if p t]] *)
Definition indices_where (p : Z -> bool) (types : list Z) : list nat :=
  fmap fst (filter (fun it => p (snd it) = true) (enumerate types)).

Definition is_pv (t : Z) : bool := t =? 2.
Definition is_pq (t : Z) : bool := t =? 3.
Definition is_pv_or_pq (t : Z) : bool := (t =? 2) || (t =? 3).

Definition calc_power_mismatch (Y : matrix) (V : list complex)
    (P_spec Q_spec : list float) (types : list Z) : list float :=
  let '(P, Q) := power_calculation_vectorized Y V in
  fmap (fun i => (P_spec !!! i - P !!! i)%float) (indices_where is_pv_or_pq types)
  ++ fmap (fun i => (Q_spec !!! i - Q !!! i)%float) (indices_where is_pq types).

(** *** Jacobian *)

Definition eps_y : float := 1e-10%float.

Section Jacobian.
Variables (Y : matrix) (V : list complex).

Definition V_mag (i : nat) : float := np_cabs (V !!! i).
Definition V_angle (i : nat) : float := np_angle (V !!! i).
Definition Y_mag (i k : nat) : float := np_cabs (entry Y i k).
Definition Y_angle (i k : nat) : float := np_angle (entry Y i k).
Definition angle_diff (i k : nat) : float :=
  (Y_angle i k + V_angle k - V_angle i)%float.

(** [for k in range(n): if k != i and Y_mag[i, k] > 1e-10: sum_val = step] *)
Definition neighbour_sum (i : nat) (init : float)
    (step : float -> nat -> float) : float :=
  fold_left
    (fun acc k =>
       if negb (k =? i)%nat && (eps_y <? Y_mag i k)%float then step acc k else acc)
    (seq 0 (length V)) init.

Definition connected (i j : nat) : bool := (eps_y <? Y_mag i j)%float.

Definition J11 (i j : nat) : float :=
  if (i =? j)%nat then
    neighbour_sum i 0
      (fun acc k => (acc + V_mag i * V_mag k * Y_mag i k * np_sin (angle_diff i k))%float)
  else if connected i j then
    (- V_mag i * V_mag j * Y_mag i j * np_sin (angle_diff i j))%float
  else 0%float.

Definition J12 (i j : nat) : float :=
  if (i =? j)%nat then
    neighbour_sum i (2 * V_mag i * Y_mag i i * np_cos (Y_angle i i))%float
      (fun acc k => (acc + V_mag k * Y_mag i k * np_cos (angle_diff i k))%float)
  else if connected i j then
    (V_mag i * Y_mag i j * np_cos (angle_diff i j))%float
  else 0%float.

Definition J21 (i j : nat) : float :=
  if (i =? j)%nat then
    neighbour_sum i 0
      (fun acc k => (acc - V_mag i * V_mag k * Y_mag i k * np_cos (angle_diff i k))%float)
  else if connected i j then
    (V_mag i * V_mag j * Y_mag i j * np_cos (angle_diff i j))%float
  else 0%float.

Definition J22 (i j : nat) : float :=
  if (i =? j)%nat then
    neighbour_sum i (-2 * V_mag i * Y_mag i i * np_sin (Y_angle i i))%float
      (fun acc k => (acc - V_mag k * Y_mag i k * np_sin (angle_diff i k))%float)
  else if connected i j then
    (- V_mag i * Y_mag i j * np_sin (angle_diff i j))%float
  else 0%float.

(** [build_jacobian_optimized]: rows are the P equations of the non-slack
    buses followed by the Q equations of the PQ buses; columns are the
    angles of the non-slack buses followed by the magnitudes of the PQ
    buses. *)
Definition build_jacobian_optimized (types : list Z) : list (list float) :=
  let pq := indices_where is_pq types in
  let pv := indices_where is_pv types in
  let non_slack := pv ++ pq in
  fmap (fun i => fmap (J11 i) non_slack ++ fmap (J12 i) pq) non_slack
  ++ fmap (fun i => fmap (J21 i) non_slack ++ fmap (J22 i) pq) pq.
End Jacobian.

(** *** The solve loop *)

Definition bus_voltages (V : list complex) : IterRecord :=
  if (length V <=? 20)%nat then voltage_items V
  else
    let mags := fmap np_cabs V in
    [ ("V_min (pu)", PStr (format_fixed 4 (np_min mags)));
      ("V_max (pu)", PStr (format_fixed 4 (np_max mags)));
      ("V_avg (pu)", PStr (format_fixed 4 (np_mean mags))) ].

(** The dict appended to [iteration_data]. *)
Definition make_record (it : nat) (V : list complex) (max_mis rms_mis : float)
    : IterRecord :=
  [("Iteration", PInt (Z.of_nat it + 1))] ++ bus_voltages V
  ++ [("Max Mismatch", PFloat max_mis); ("RMS Mismatch", PFloat rms_mis)].

(** The locals of [solve] that live across iterations; [max_mis] is unbound
    ([None]) until the first iteration assigns it. *)
Record LoopState : Type := {
  st_V : list complex;
  st_iteration_data : list IterRecord;
  st_converged : bool;
  st_max_mis : option float
}.

Definition step_size (it : nat) : float :=
  if (it <? 3)%nat then 0.8%float else 1%float.

(** [for idx, i in enumerate(non_slack): ... V[i] = V_mag * np.exp(1j * delta_new)] *)
Definition update_angles (step : float) (dX : list float)
    (non_slack : list nat) (V : list complex) : list complex :=
  fold_left
    (fun V '(idx, i) =>
       let delta_old := np_angle (V !!! i) in
       let V_mag := np_cabs (V !!! i) in
       let delta_new := (delta_old + step * dX !!! idx)%float in
       <[i := np_cmul (of_real V_mag) (np_cexp (np_cmul j1 (of_real delta_new)))]> V)
    (enumerate non_slack) V.

(** [for idx, i in enumerate(pq): ... V[i] = V_mag_new * np.exp(1j * delta)] *)
Definition update_magnitudes (step : float) (dX : list float)
    (offset : nat) (pq : list nat) (V : list complex) : list complex :=
  fold_left
    (fun V '(idx, i) =>
       let delta := np_angle (V !!! i) in
       let V_mag_old := np_cabs (V !!! i) in
       let V_mag_new := (V_mag_old + step * dX !!! (offset + idx)%nat)%float in
       let V_mag_new := np_clip V_mag_new 0.5 1.5 in
       <[i := np_cmul (of_real V_mag_new) (np_cexp (np_cmul j1 (of_real delta)))]> V)
    (enumerate pq) V.

Definition update_voltages (it : nat) (dX : list float) (types : list Z)
    (V : list complex) : list complex :=
  let pq := indices_where is_pq types in
  let pv := indices_where is_pv types in
  let non_slack := pv ++ pq in
  let V1 := update_angles (step_size it) dX non_slack V in
  update_magnitudes (step_size it) dX (length non_slack) pq V1.

Definition rms (mismatch : list float) : float :=
  PrimFloat.sqrt (np_mean (fmap (fun m => (m * m)%float) mismatch)).

Definition converged_test (tol max_mis rms_mis : float) : bool :=
  (max_mis <? tol)%float && (rms_mis <? tol / 10)%float.

(** Body of [for it in range(max_iter)]. *)
Definition iteration (Y : matrix) (types : list Z) (P_spec Q_spec : list float)
    (tol : float) (it : nat) (st : LoopState) : LoopState * flow :=
  let V := st_V st in
  let mismatch := calc_power_mismatch Y V P_spec Q_spec types in
  if (length mismatch =? 0)%nat then
    ({| st_V := V; st_iteration_data := st_iteration_data st;
        st_converged := true; st_max_mis := st_max_mis st |}, Break)
  else
    let max_mis := np_max (fmap PrimFloat.abs mismatch) in
    let rms_mis := rms mismatch in
    let data := st_iteration_data st ++ [make_record it V max_mis rms_mis] in
    if converged_test tol max_mis rms_mis then
      ({| st_V := V; st_iteration_data := data;
          st_converged := true; st_max_mis := Some max_mis |}, Break)
    else
      let stay := {| st_V := V; st_iteration_data := data;
                     st_converged := st_converged st;
                     st_max_mis := Some max_mis |} in
      let J := build_jacobian_optimized Y V types in
      match linalg_cond J with
      | None => (stay, Break)                       (* except LinAlgError *)
      | Some _ =>
        match linalg_solve J mismatch with
        | None => (stay, Break)                     (* except LinAlgError *)
        | Some dX =>
          ({| st_V := update_voltages it dX types V; st_iteration_data := data;
              st_converged := st_converged st;
              st_max_mis := Some max_mis |}, Continue)
        end
      end.

(** [solve] up to the end of the loop. *)
Definition run (bus_data : list Bus) (line_data : list Line)
    (tol : float) (max_iter : Z) : result LoopState :=
  Yw <- build_ybus (length bus_data) line_data ;;
  let '(types, V, P_spec, Q_spec) := extract_bus_params bus_data in
  Ok (for_loop (iteration (fst Yw) types P_spec Q_spec tol) (py_range max_iter)
        {| st_V := V; st_iteration_data := []; st_converged := false;
           st_max_mis := None |}).

(** [solve(tol, max_iter)]: returns [(V, iteration_data)].  The report
    printed when [converged] is false formats [max_mis], which raises when
    the name was never bound. *)
Definition solve (bus_data : list Bus) (line_data : list Line)
    (tol : float) (max_iter : Z) : result (list complex * list IterRecord) :=
  st <- run bus_data line_data tol max_iter ;;
  _ <- (if st_converged st then Ok tt
        else match st_max_mis st with
             | Some _ => Ok tt
             | None => Raise UnboundLocalError
             end) ;;
  Ok (st_V st, st_iteration_data st).
End Defs.
End NRLoadFlow.

(* ------------------------------------------------------------------ *)
(** ** [gauss_seidel.py]: class GaussSeidel *)

Module GaussSeidel.
Section Defs.
Context {R : Runtime}.

Definition build_ybus_line (nb : nat) (Y : matrix) (l : Line) : result matrix :=
  let i := line_from l - 1 in
  let j := line_to l - 1 in
  y <- py_recip (Cplx (line_r l) (line_x l)) ;;
  stamp_line nb Y i j y (half_shunt (line_b l)).

Definition build_ybus (nb : nat) (lines : list Line) : result matrix :=
  foldM (build_ybus_line nb) lines (zeros nb).

(** The dict appended to [self.iter_data]. *)
Definition make_record (it : nat) (max_mis max_power_mis : float)
    (V : list complex) : IterRecord :=
  [("Iteration", PInt (Z.of_nat it + 1));
   ("Max Voltage Mismatch", PFloat max_mis);
   ("Max Power Mismatch", PFloat max_power_mis)] ++ voltage_items V.

(** The instance fields.  [bus_ncols] is [bus_data.shape[1]]. *)
Record t : Type := {
  bus_data : list Bus;
  bus_ncols : nat;
  line_data : list Line;
  Sbase : float;
  Ybus : option matrix;
  V_final : option (list complex);
  iter_data : list IterRecord
}.

(** [__init__] *)
Definition init (bus_data : list Bus) (bus_ncols : nat) (line_data : list Line)
    (Sbase : float) : t :=
  {| bus_data := bus_data; bus_ncols := bus_ncols; line_data := line_data;
     Sbase := Sbase; Ybus := None; V_final := None; iter_data := [] |}.

Definition slack_voltage (b : Bus) : complex :=
  np_cmul (of_real (bus_vm b))
          (np_cexp (np_cmul j1 (of_real (np_radians (bus_va b))))).

Definition initial_voltage (b : Bus) : complex :=
  if bus_type b =? 1 then slack_voltage b else flat_start.

(** The vector [V] after the initialisation loop. *)
Definition initial_voltages (bus_data : list Bus) : list complex :=
  fmap initial_voltage bus_data.

(** Everything [solve] computes once, before the sweeps. *)
Record Setup : Type := {
  s_Y : matrix;
  s_types : list Z;
  s_vm : list float;          (* bus_data[:, 2] *)
  s_P_spec : list float;
  s_Q_spec : list float;
  s_Qmin : list float;
  s_Qmax : list float;
  s_alpha : float
}.

Definition setup (self : t) (Y : matrix) (alpha : float) : Setup :=
  let per_unit (col : Bus -> float) := fmap (fun b => (col b / Sbase self)%float) (bus_data self) in
  let wide := (10 <=? bus_ncols self)%nat in
  {| s_Y := Y;
     s_types := fmap bus_type (bus_data self);
     s_vm := fmap bus_vm (bus_data self);
     s_P_spec := zip_with PrimFloat.sub (per_unit bus_pg) (per_unit bus_pl);
     s_Q_spec := zip_with PrimFloat.sub (per_unit bus_qg) (per_unit bus_ql);
     s_Qmin := if wide then per_unit bus_qmin
               else replicate (length (bus_data self)) neg_infinity;
     s_Qmax := if wide then per_unit bus_qmax
               else replicate (length (bus_data self)) infinity;
     s_alpha := alpha |}.

Section Sweep.
Variable c : Setup.

(** [sumYV]: sum of [Ybus[i, k] * V[k]] over [k != i]. *)
Definition sumYV (i : nat) (V : list complex) : complex :=
  fold_left
    (fun acc k => if negb (k =? i)%nat
                  then cadd acc (np_cmul (entry (s_Y c) i k) (V !!! k)) else acc)
    (seq 0 (length V)) c0.

(** [(1 / Ybus[i, i]) * ((S.conjugate() / V[i].conjugate()) - sumYV)] *)
Definition solve_voltage (i : nat) (S Vi sum : complex) : complex :=
  np_cmul (np_cdiv (of_real 1) (entry (s_Y c) i i))
          (csub (np_cdiv (conjugate S) (conjugate Vi)) sum).

(** [alpha * V_new + (1.0 - alpha) * V[i]] *)
Definition blend (V_new Vi : complex) : complex :=
  cadd (np_cmul (of_real (s_alpha c)) V_new)
       (np_cmul (of_real (1 - s_alpha c)%float) Vi).

(** [np.dot(Ybus[i, :], V)] then [V[i] * I_inj.conjugate()] *)
Definition S_calc (i : nat) (V : list complex) : complex :=
  np_cmul (V !!! i) (conjugate (np_dot (s_Y c !!! i) V)).

(** The [types[i] == 3] branch. *)
Definition update_pq (i : nat) (sum : complex) (V : list complex) : list complex :=
  let S := Cplx (s_P_spec c !!! i) (s_Q_spec c !!! i) in
  let V := if (np_cabs (V !!! i) <? eps_z)%float then <[i := flat_start]> V else V in
  let V_new := solve_voltage i S (V !!! i) sum in
  <[i := blend V_new (V !!! i)]> V.

(** The reactive injection a PV bus is given: estimated from the current
    voltages, then clipped to the limits. *)
Definition pv_reactive (i : nat) (V : list complex) : float :=
  np_clip (im (S_calc i V)) (s_Qmin c !!! i) (s_Qmax c !!! i).

(** [if abs(V_new) > 1e-12: V_new = bus_data[i, 2] * (V_new / abs(V_new))] *)
Definition renormalize (i : nat) (V_new : complex) : complex :=
  if (eps_z <? np_cabs V_new)%float
  then np_cmul (of_real (s_vm c !!! i)) (np_cdiv V_new (of_real (np_cabs V_new)))
  else V_new.

(** [if abs(V[i]) < 1e-12: V[i] = complex(bus_data[i, 2], 0.0)] *)
Definition reseed_pv (i : nat) (V : list complex) : list complex :=
  if (np_cabs (V !!! i) <? eps_z)%float then <[i := Cplx (s_vm c !!! i) 0]> V else V.

(** [V_new] as first assigned in the PV branch: the voltage solved from
  [S = complex(P_spec[i], Qi)]. *)
Definition pv_solved (i : nat) (sum : complex) (V : list complex) : complex :=
  solve_voltage i (Cplx (s_P_spec c !!! i) (pv_reactive i V)) (reseed_pv i V !!! i) sum.

(** The [types[i] == 2] branch. *)
Definition update_pv (i : nat) (sum : complex) (V : list complex) : list complex :=
  let V_new := renormalize i (pv_solved i sum V) in
  let V := reseed_pv i V in
  <[i := blend V_new (V !!! i)]> V.

(** The locals of one sweep. *)
Record SweepState : Type := {
  sw_V : list complex;
  sw_max_mis : float;
  sw_max_power_mis : float
}.

(** Body of [for i in range(nb)]. *)
Definition bus_step (V_prev : list complex) (s : SweepState) (i : nat) : SweepState :=
  let t := s_types c !!! i in
  if t =? 1 then s
  else
    let sum := sumYV i (sw_V s) in
    let V := if t =? 3 then update_pq i sum (sw_V s)
             else if t =? 2 then update_pv i sum (sw_V s)
             else sw_V s in
    let mis := np_cabs (csub (V !!! i) (V_prev !!! i)) in
    let Sc := S_calc i V in
    let P_mis := PrimFloat.abs (s_P_spec c !!! i - re Sc)%float in
    let Q_mis := PrimFloat.abs (s_Q_spec c !!! i - im Sc)%float in
    {| sw_V := V;
       sw_max_mis := py_max (sw_max_mis s) mis;
       sw_max_power_mis :=
         if t =? 3 then py_max (py_max (sw_max_power_mis s) P_mis) Q_mis
         else if t =? 2 then py_max (sw_max_power_mis s) P_mis
         else sw_max_power_mis s |}.

Definition sweep (V : list complex) : SweepState :=
  fold_left (bus_step V) (seq 0 (length V))
    {| sw_V := V; sw_max_mis := 0; sw_max_power_mis := 0 |}.

(** The locals of [solve] that live across iterations, together with the
    instance list [self.iter_data] the loop appends to. *)
Record LoopState : Type := {
  st_V : list complex;
  st_iter_data : list IterRecord;
  st_converged : bool
}.

(** Body of [for it in range(max_iter)]. *)
Definition iteration (tol : float) (it : nat) (st : LoopState)
    : LoopState * flow :=
  let s := sweep (st_V st) in
  let data := st_iter_data st ++
    [make_record it (sw_max_mis s) (sw_max_power_mis s) (sw_V s)] in
  if (sw_max_mis s <? tol)%float then
    ({| st_V := sw_V s; st_iter_data := data; st_converged := true |}, Break)
  else
    ({| st_V := sw_V s; st_iter_data := data; st_converged := st_converged st |},
     Continue).
End Sweep.

(** The body of the [try] block of [solve], up to the end of the loop. *)
Definition run (self : t) (tol : float) (max_iter : Z) (alpha : float)
    : result (matrix * LoopState) :=
  Y <- build_ybus (length (bus_data self)) (line_data self) ;;
  Ok (Y,
      for_loop (iteration (setup self Y alpha) tol) (py_range max_iter)
        {| st_V := initial_voltages (bus_data self);
           st_iter_data := iter_data self;
           st_converged := false |}).

(** [solve(tol, max_iter, alpha)]: the instance after the call and either
    the returned pair [(V, self.iter_data)] or the [RuntimeError] the
    [except] clause raises. *)
Definition solve (self : t) (tol : float) (max_iter : Z) (alpha : float)
    : t * result (list complex * list IterRecord) :=
  match run self tol max_iter alpha with
  | Ok (Y, st) =>
    ({| bus_data := bus_data self; bus_ncols := bus_ncols self;
        line_data := line_data self; Sbase := Sbase self;
        Ybus := Some Y; V_final := Some (st_V st);
        iter_data := st_iter_data st |},
     Ok (st_V st, st_iter_data st))
  | Raise e => (self, Raise (RuntimeError e))
  end.
End Defs.
End GaussSeidel.

(* ------------------------------------------------------------------ *)
(** ** [fast_decoupled.py]: class FastDecoupled *)

Module FastDecoupled.

(** The instance fields set by [__init__]. *)
Record t : Type := {
  bus_data : list Bus;
  line_data : list Line;
  Sbase : float;
  Ybus : option matrix;
  V_final : option (list complex);
  iter_data : list IterRecord;
  converged : bool
}.

(** [__init__] *)
Definition init (bus_data : list Bus) (line_data : list Line) (Sbase : float) : t :=
  {| bus_data := bus_data; line_data := line_data; Sbase := Sbase;
     Ybus := None; V_final := None; iter_data := []; converged := false |}.

(** The names the class body binds: every line after [__init__] is a
    comment. *)
Definition class_dict : list string := ["__init__"].

(** The names an instance binds. *)
Definition instance_dict : list string :=
  ["bus_data"; "line_data"; "Sbase"; "Ybus"; "V_final"; "iter_data"; "converged"].

End FastDecoupled.

(* ------------------------------------------------------------------ *)
(** ** The solver classes as the caller sees them *)

Inductive solver_class : Type := NRLoadFlowC | GaussSeidelC | FastDecoupledC.

(** The names bound by each class body. *)
Definition class_dict (c : solver_class) : list string :=
  match c with
  | NRLoadFlowC =>
  ["__init__"; "build_ybus"; "extract_bus_params"; "power_calculation_vectorized";
   "calc_power_mismatch"; "build_jacobian_optimized"; "solve"; "get_ybus_string";
   "get_results_summary"; "get_power_flow_results"]
  | GaussSeidelC =>
  ["__init__"; "build_ybus"; "solve"; "get_ybus_string"; "get_results_summary"]
  | FastDecoupledC => FastDecoupled.class_dict
  end.

(** The names bound on an instance by [__init__]. *)
Definition instance_dict (c : solver_class) : list string :=
  match c with
  | NRLoadFlowC =>
  ["bus_data"; "line_data"; "use_sparse"; "Ybus"; "V_final"; "iter_data"; "n_buses"]
  | GaussSeidelC =>
  ["bus_data"; "line_data"; "Sbase"; "Ybus"; "V_final"; "iter_data"]
  | FastDecoupledC => FastDecoupled.instance_dict
  end.

(** Attribute lookup on an instance: its own names, then those of its class. *)
Definition has_attribute (c : solver_class) (name : string) : bool :=
  bool_decide (name ∈ instance_dict c ++ class_dict c).

(** The body bound to the name [solve] in a class, applied to an instance
  built from the two tables and called with its default arguments, as the
  front end does. *)
Definition solve_method {R : Runtime} (c : solver_class)
  : option (list Bus -> list Line -> result (list complex * list IterRecord)) :=
  match c with
  | NRLoadFlowC => Some (fun bus_data line_data =>
    NRLoadFlow.solve bus_data line_data 1e-6 20)
  | GaussSeidelC => Some (fun bus_data line_data =>
    snd (GaussSeidel.solve (GaussSeidel.init bus_data 8 line_data 1) 1e-6 100 1))
  | FastDecoupledC => None
  end.

(** [solver = C(bus_data, line_data); solver.solve()] *)
Definition call_solve {R : Runtime} (c : solver_class) (bus_data : list Bus)
  (line_data : list Line) : result (list complex * list IterRecord) :=
  if has_attribute c "solve" then
  match solve_method c with
  | Some f => f bus_data line_data
  | None => Raise AttributeError
  end
  else Raise AttributeError.

(* ------------------------------------------------------------------ *)
(** ** A reference [Runtime], for running the solvers on concrete tables

  Real arithmetic is binary64.  Complex products and quotients follow the
  formulas of numpy (product by the textbook rule, quotient by Smith's
  method) and of CPython ([_Py_c_quot]).  The libm routines are short
  series without range reduction: they return the values C Annex F fixes
  (cos 0 = 1, sin 0 = 0, exp 0 = 1, atan2(0, x) = 0 for x > 0) and only
  approximate libm elsewhere.  [linalg_solve] is Cramer's rule and
  [linalg_cond] the Frobenius-norm condition number, where LAPACK uses an LU
  factorisation and an SVD. *)

Module Reference.
Local Open Scope float_scope.

Definition cmul (a b : complex) : complex :=
  Cplx (re a * re b - im a * im b) (re a * im b + im a * re b).

Definition cdiv (a b : complex) : complex :=
  let abr := PrimFloat.abs (re b) in
  let abi := PrimFloat.abs (im b) in
  if abi <=? abr then
    if (abr =? 0) && (abi =? 0) then Cplx (re a / abr) (im a / abr)
    else
      let rat := im b / re b in
      let scl := 1 / (re b + im b * rat) in
      Cplx ((re a + im a * rat) * scl) ((im a - re a * rat) * scl)
  else
    let rat := re b / im b in
    let scl := 1 / (im b + re b * rat) in
    Cplx ((re a * rat + im a) * scl) ((im a * rat - re a) * scl).

Definition cquot (a b : complex) : complex :=
  let abr := PrimFloat.abs (re b) in
  let abi := PrimFloat.abs (im b) in
  if abi <=? abr then
    if abr =? 0 then c0
    else
      let ratio := im b / re b in
      let denom := re b + im b * ratio in
      Cplx ((re a + im a * ratio) / denom) ((im a - re a * ratio) / denom)
  else if abr <=? abi then
    let ratio := re b / im b in
    let denom := re b * ratio + im b in
    Cplx ((re a * ratio + im a) / denom) ((im a * ratio - re a) / denom)
  else Cplx nan nan.

Definition cabs (a : complex) : float :=
  PrimFloat.sqrt (re a * re a + im a * im a).

Definition pi : float := 3.141592653589793.

(** [acc + t1 + t2 + ...] with [t(m+1) = - t(m) * y / (k * (k + 1))]. *)
Fixpoint alternating (n : nat) (k term acc y : float) : float :=
  match n with
  | O => acc
  | S n' =>
    let term' := - (term * y / (k * (k + 1))) in
    alternating n' (k + 2) term' (acc + term') y
  end.

Definition cos (x : float) : float := alternating 20 1 1 1 (x * x).
Definition sin (x : float) : float := x * alternating 20 2 1 1 (x * x).

Fixpoint exp_series (n : nat) (k term acc x : float) : float :=
  match n with
  | O => acc
  | S n' => let term' := term * x / k in exp_series n' (k + 1) term' (acc + term') x
  end.

Definition exp (x : float) : float := exp_series 40 1 1 1 x.

Definition cexp (a : complex) : complex :=
  Cplx (exp (re a) * cos (im a)) (exp (re a) * sin (im a)).

(** [t - t^3/3 + t^5/5 - ...] for small [t]. *)
Fixpoint atan_series (n : nat) (k power acc y : float) : float :=
  match n with
  | O => acc
  | S n' =>
    let power' := - (power * y) in
    atan_series n' (k + 2) power' (acc + power' / (k + 2)) y
  end.

Definition atan_halve (t : float) : float := t / (1 + PrimFloat.sqrt (1 + t * t)).

Definition atan_small (t : float) : float :=
  let u := atan_halve (atan_halve t) in
  4 * (u * atan_series 14 1 1 1 (u * u)).

Definition atan (t : float) : float :=
  if PrimFloat.abs t <=? 1 then atan_small t
  else if 0 <? t then pi / 2 - atan_small (1 / t)
  else - (pi / 2) - atan_small (1 / t).

Definition negative (y : float) : bool :=
  (y <? 0) || ((y =? 0) && (1 / y <? 0)).

Definition atan2 (y x : float) : float :=
  if is_nan x || is_nan y then nan
  else if 0 <? x then atan (y / x)
  else if x <? 0 then
    if negative y then atan (y / x) - pi else atan (y / x) + pi
  else if 0 <? y then pi / 2
  else if y <? 0 then - (pi / 2)
  else y.

Definition angle (a : complex) : float := atan2 (im a) (re a).

Definition radians (x : float) : float := x * (pi / 180).
Definition degrees (x : float) : float := x * (180 / pi).

Definition sum (l : list float) : float := fold_left PrimFloat.add l 0.

Definition of_nat (n : nat) : float :=
  PrimFloat.of_uint63 (Uint63.of_Z (Z.of_nat n)).

Definition mean (l : list float) : float := sum l / of_nat (length l).

Definition max (l : list float) : float :=
  match l with [] => nan | x :: l' => fold_left np_maximum l' x end.
Definition min (l : list float) : float :=
  match l with [] => nan | x :: l' => fold_left np_minimum l' x end.

Definition dot (a b : list complex) : complex :=
  fold_left (fun acc xy => cadd acc (cmul (fst xy) (snd xy))) (zip a b) c0.

(** Determinant by expansion along the first row. *)
Fixpoint det_fuel (n : nat) (M : list (list float)) : float :=
  match n, M with
  | S n', row :: rest =>
    fold_left
      (fun acc ja =>
         let minor := det_fuel n' (fmap (delete (fst ja)) rest) in
         if Nat.even (fst ja) then acc + snd ja * minor else acc - snd ja * minor)
      (enumerate row) 0
  | _, _ => 1
  end.

Definition det (M : list (list float)) : float := det_fuel (length M) M.

Definition replace_column (M : list (list float)) (k : nat) (b : list float)
    : list (list float) :=
  zip_with (fun row bi => <[k := bi]> row) M b.

Definition cramer (M : list (list float)) (b : list float) : list float :=
  fmap (fun k => det (replace_column M k b) / det M) (seq 0 (length b)).

Definition solve (M : list (list float)) (b : list float) : option (list float) :=
  if det M =? 0 then None else Some (cramer M b).

Definition frobenius (M : list (list float)) : float :=
  PrimFloat.sqrt (sum (fmap (fun x => x * x) (concat M))).

Definition unit_vector (n k : nat) : list float := <[k := 1]> (replicate n 0).

Definition cond (M : list (list float)) : option float :=
  if existsb is_nan (concat M) then None
  else if det M =? 0 then Some infinity
  else
    let n := length M in
    Some (frobenius M * frobenius (fmap (fun k => cramer M (unit_vector n k)) (seq 0 n))).

(** [format(x, ".Nf")]: the exact value of [x], rounded half-to-even to
    [d] decimals. *)
Definition round_scaled (d : nat) (m : positive) (e : Z) : Z :=
  let num := (Z.pos m * 10 ^ Z.of_nat d)%Z in
  if (0 <=? e)%Z then (num * 2 ^ e)%Z
  else
    let den := (2 ^ (- e))%Z in
    let q := (num / den)%Z in
    let r := (num mod den)%Z in
    if (den <? 2 * r)%Z || ((den =? 2 * r)%Z && Z.odd q) then (q + 1)%Z else q.

Definition pad_zeros (d : nat) (s : string) : string :=
  String.concat "" (replicate (d - String.length s) "0") +:+ s.

Definition fixed_digits (d : nat) (q : Z) : string :=
  let scale := (10 ^ Z.of_nat d)%Z in
  pretty (q / scale)%Z
  +:+ (if (d =? 0)%nat then "" else "." +:+ pad_zeros d (pretty (q mod scale)%Z)).

Definition fmt_fixed (d : nat) (x : float) : string :=
  match Prim2SF x with
  | S754_nan => "nan"
  | S754_infinity s => if s then "-inf" else "inf"
  | S754_zero s => (if s then "-" else "") +:+ fixed_digits d 0
  | S754_finite s m e => (if s then "-" else "") +:+ fixed_digits d (round_scaled d m e)
  end.

Definition runtime : Runtime := {|
  py_cquot := cquot;
  np_cmul := cmul;
  np_cdiv := cdiv;
  np_cabs := cabs;
  np_angle := angle;
  np_cexp := cexp;
  np_cos := cos;
  np_sin := sin;
  np_radians := radians;
  np_degrees := degrees;
  np_sum := sum;
  np_mean := mean;
  np_max := max;
  np_min := min;
  np_dot := dot;
  linalg_cond := cond;
  linalg_solve := solve;
  format_fixed := fmt_fixed
  |}.
End Reference.

(* ------------------------------------------------------------------ *)
(** ** Sample tables *)

Definition mk_bus (id type : Z) (vm va pg qg pl ql : float) : Bus :=
  {| bus_id := id; bus_type := type; bus_vm := vm; bus_va := va;
     bus_pg := pg; bus_qg := qg; bus_pl := pl; bus_ql := ql;
     bus_qmin := 0; bus_qmax := 0 |}.

Definition mk_line (i j : Z) (r x b : float) : Line :=
  {| line_from := i; line_to := j; line_r := r; line_x := x; line_b := b |}.

(** The 3-bus system of the [__main__] block of [newton_raphson.py]. *)
Definition bus_data_3bus : list Bus :=
  [ mk_bus 1 1 1.05 0 0 0 0 0;
    mk_bus 2 2 1.03 0 0.5 0 0 0;
    mk_bus 3 3 1 0 0 0 0.8 0.4 ].

Definition line_data_3bus : list Line :=
  [ mk_line 1 2 0.02 0.06 0.06;
    mk_line 1 3 0.08 0.24 0.05;
    mk_line 2 3 0.06 0.18 0.04 ].

(** A two-bus table whose single line has zero impedance. *)
Definition bus_data_2bus : list Bus :=
  [ mk_bus 1 1 1.05 0 0 0 0 0;
    mk_bus 2 3 1 0 0 0 0.8 0.4 ].

Definition zero_impedance_line : Line := mk_line 1 2 0 0 0.

(* ------------------------------------------------------------------ *)
(** ** Vocabulary of the properties *)

(** [Y[a][b] == Y[b][a]] for all indices, on the stored values. *)
Definition symmetric (Y : matrix) : Prop :=
  forall a b : nat, entry Y a b = entry Y b a.

(** The same on checked reads, which also compare the shapes. *)
Definition mget_symmetric (Y : matrix) : Prop :=
  forall a b : nat, mget Y a b = mget Y b a.

(** [Y] is the admittance matrix one of the two builders returns for a
    table of [nb] buses and the given lines. *)
Definition built_by {R : Runtime} (nb : nat) (lines : list Line) (Y : matrix) : Prop :=
  (exists ws, NRLoadFlow.build_ybus nb lines = Ok (Y, ws))
  \/ GaussSeidel.build_ybus nb lines = Ok Y.

(** The PV-bus update as the specification words it: estimate the reactive
    injection, clip it, solve for the voltage (after the re-seed guard), set
    its magnitude to the set-point, blend. *)
Definition update_pv_as_specified {R : Runtime} (c : GaussSeidel.Setup) (i : nat)
    (sum : complex) (V : list complex) : list complex :=
  let Qi := np_clip (im (GaussSeidel.S_calc c i V))
                    (GaussSeidel.s_Qmin c !!! i) (GaussSeidel.s_Qmax c !!! i) in
  let S := Cplx (GaussSeidel.s_P_spec c !!! i) Qi in
  let V1 := GaussSeidel.reseed_pv c i V in
  let V_new := GaussSeidel.solve_voltage c i S (V1 !!! i) sum in
  let V_new := np_cmul (of_real (GaussSeidel.s_vm c !!! i))
                       (np_cdiv V_new (of_real (np_cabs V_new))) in
  <[i := GaussSeidel.blend c V_new (V1 !!! i)]> V1.

(** The value of the local [converged] when the loop of [GaussSeidel.solve]
    ends ([None] when the call raises before). *)
Definition GS_converged {R : Runtime} (self : GaussSeidel.t) (tol : float)
    (max_iter : Z) (alpha : float) : option bool :=
  match GaussSeidel.run self tol max_iter alpha with
  | Ok (_, st) => Some (GaussSeidel.st_converged st)
  | Raise _ => None
  end.

(** What one Newton-Raphson iteration does when the mismatch vector is not
    empty: it ends the loop converged exactly when both tests pass, and
    otherwise assembles the Jacobian and either updates [V] or, on a
    LinAlgError, leaves the loop with [V] as it was. *)
Definition NR_convergence_rule {R : Runtime} (Y : matrix) (types : list Z)
    (P_spec Q_spec : list float) (tol : float) (it : nat)
    (st : NRLoadFlow.LoopState) : Prop :=
  let V := NRLoadFlow.st_V st in
  let mismatch := NRLoadFlow.calc_power_mismatch Y V P_spec Q_spec types in
  let max_mis := np_max (PrimFloat.abs <$> mismatch) in
  let rms_mis := NRLoadFlow.rms mismatch in
  let '(st', fl) := NRLoadFlow.iteration Y types P_spec Q_spec tol it st in
  (NRLoadFlow.st_converged st' = true
   <-> (max_mis <? tol)%float = true /\ (rms_mis <? tol / 10)%float = true)
  /\ (NRLoadFlow.st_converged st' = true -> fl = Break /\ NRLoadFlow.st_V st' = V)
  /\ (NRLoadFlow.st_converged st' = false ->
      let J := NRLoadFlow.build_jacobian_optimized Y V types in
      match linalg_cond J, linalg_solve J mismatch with
      | Some _, Some dX =>
        fl = Continue /\ NRLoadFlow.st_V st' = NRLoadFlow.update_voltages it dX types V
      | _, _ => fl = Break /\ NRLoadFlow.st_V st' = V
      end).

(** The admittance matrix of the 3-bus sample table. *)
Definition Ybus_3bus : matrix :=
  Eval vm_compute in
    match NRLoadFlow.build_ybus (R := Reference.runtime) 3 line_data_3bus with
    | Ok (Y, _) => Y
    | Raise _ => []
    end.

(** A two-bus table (ten columns, Qmin = Qmax = 0) whose slack set-point is
    1e-13 p.u.: the voltage solved for the PV bus in the first sweep has
    magnitude 1e-13. *)
Definition bus_data_dead : list Bus :=
  [ mk_bus 1 1 1e-13 0 0 0 0 0;
    mk_bus 2 2 1.03 0 0 0 0 0 ].

Definition line_data_dead : list Line := [ mk_line 1 2 1 0 0 ].

(** A table with the slack bus only. *)
Definition bus_data_slack_only : list Bus := [ mk_bus 1 1 1.05 0 0 0 0 0 ].

(** The admittance matrix of the table [bus_data_dead]. *)
Definition Ybus_dead : matrix :=
  Eval vm_compute in
    match GaussSeidel.build_ybus (R := Reference.runtime) 2 line_data_dead with
    | Ok Y => Y
    | Raise _ => []
    end.

(** Gauss-Seidel instances on the sample tables. *)
Definition gs_3bus : GaussSeidel.t :=
  GaussSeidel.init bus_data_3bus 8 line_data_3bus 1.
Definition gs_dead : GaussSeidel.t :=
  GaussSeidel.init bus_data_dead 10 line_data_dead 1.

(* ------------------------------------------------------------------ *)
(** ** Further vocabulary: the admittance builders *)

(** [f] applied to the value a call returns. *)
Definition result_map {A B} (f : A -> B) (m : result A) : result B :=
  match m with Ok a => Ok (f a) | Raise e => Raise e end.

(** Both bus ids of a line index the [nb] x [nb] array without an IndexError. *)
Definition ids_in_range (nb : nat) (l : Line) : Prop :=
  is_Some (py_index nb (line_from l - 1)) /\ is_Some (py_index nb (line_to l - 1)).

(** The line is one the Newton-Raphson builder skips. *)
Definition skipped (l : Line) : Prop :=
  NRLoadFlow.near_zero (line_r l) (line_x l) = true.

(** The bus a 1-based id designates once Python has wrapped the index
    [id - 1]: ids from [-nb + 1] to [0] designate bus [id + nb]. *)
Definition wrapped_id (nb : nat) (id : Z) : Z :=
  if (- Z.of_nat nb <? id) && (id <=? 0) then id + Z.of_nat nb else id.

Definition wrapped_line (nb : nat) (l : Line) : Line :=
  {| line_from := wrapped_id nb (line_from l); line_to := wrapped_id nb (line_to l);
     line_r := line_r l; line_x := line_x l; line_b := line_b l |}.

(** A bus id for which the float subtraction [id - 1] is exact, so that the
    warning of the Newton-Raphson builder, which names [int(id - 1) + 1],
    names the id itself. *)
Definition exact_id (id : Z) : Prop := - 2 ^ 53 < id <= 2 ^ 53.

(** An [nb] x [nb] array. *)
Definition square (nb : nat) (Y : matrix) : Prop :=
  length Y = nb /\ forall row, row ∈ Y -> length row = nb.

(* ------------------------------------------------------------------ *)
(** ** Further vocabulary: the solve loops *)

(** [d[key]] on a record: the value of the first item with that key. *)
Fixpoint dict_get (key : string) (d : IterRecord) : option pyval :=
  match d with
  | [] => None
  | (k, v) :: d' => if String.eqb k key then Some v else dict_get key d'
  end.

(** The records of a trace are numbered 1, 2, 3, ... in their 'Iteration'
    field. *)
Definition numbered_from_1 (trace : list IterRecord) : Prop :=
  forall (j : nat) (r : IterRecord),
    trace !! j = Some r -> dict_get "Iteration" r = Some (PInt (Z.of_nat j + 1)).

(** The voltages [V] pass the Newton-Raphson convergence test for the given
    matrix and specified powers (or there is no unknown to test). *)
Definition NR_passes_test {R : Runtime} (Y : matrix) (types : list Z)
    (P_spec Q_spec : list float) (tol : float) (V : list complex) : Prop :=
  let mismatch := NRLoadFlow.calc_power_mismatch Y V P_spec Q_spec types in
  mismatch = []
  \/ NRLoadFlow.converged_test tol (np_max (PrimFloat.abs <$> mismatch))
       (NRLoadFlow.rms mismatch) = true.

(** The state a Gauss-Seidel loop ends in comes from a sweep whose largest
    voltage change was below [tol]: its voltages are that sweep's, and the
    last record of the trace is that sweep's. *)
Definition GS_ends_on_small_sweep {R : Runtime} (c : GaussSeidel.Setup) (tol : float)
    (st : GaussSeidel.LoopState) : Prop :=
  exists (V0 : list complex) (it : nat) (data0 : list IterRecord),
    let s := GaussSeidel.sweep c V0 in
    GaussSeidel.st_V st = GaussSeidel.sw_V s
    /\ (GaussSeidel.sw_max_mis s <? tol)%float = true
    /\ GaussSeidel.st_iter_data st
       = data0 ++ [GaussSeidel.make_record it (GaussSeidel.sw_max_mis s)
                     (GaussSeidel.sw_max_power_mis s) (GaussSeidel.sw_V s)].

(** The table has a bus whose voltage is an unknown of Newton-Raphson. *)
Definition has_unknown (bus_data : list Bus) : Prop :=
  exists (i : nat) (b : Bus),
    bus_data !! i = Some b /\ (bus_type b = 2 \/ bus_type b = 3).


(** The bus each of the leading rows of the Jacobian belongs to
    ([non_slack = pv + pq]), and the bus each of the leading entries of the
    mismatch vector belongs to ([t in [2, 3]], in table order). *)
Definition row_buses (types : list Z) : list nat :=
  NRLoadFlow.indices_where NRLoadFlow.is_pv types
  ++ NRLoadFlow.indices_where NRLoadFlow.is_pq types.
Definition mismatch_buses (types : list Z) : list nat :=
  NRLoadFlow.indices_where NRLoadFlow.is_pv_or_pq types.



(** The guard of [GaussSeidel.get_results_summary]:
    [self.V_final is None or not self.iter_data], under which the method
    returns 'No results available. Run the load flow first.' *)
Definition GS_no_results_available (self : GaussSeidel.t) : bool :=
  match GaussSeidel.V_final self, GaussSeidel.iter_data self with
  | None, _ => true
  | Some _, [] => true
  | Some _, _ :: _ => false
  end.


(* ------------------------------------------------------------------ *)
(** ** [gui.py]: the tables of ModernLoadFlowGUI and [run_analysis] *)

Module GUI.

(** The message boxes the handlers below can open. *)
Inductive notice : Type :=
| BusExists (id : Z)          (* 'Bus {id} already exists!' *)
| AddBusesFirst               (* 'Please add buses first' *)
| LineExists (i j : Z)        (* 'Line between {i} and {j} already exists!' *)
| SameBus                     (* 'From and To buses cannot be the same!' *)
| NoBus                       (* 'Please add at least one bus' *)
| NoLine                      (* 'Please add at least one line' *)
| NoSlack                     (* 'Please specify exactly one slack bus (Type 1)' *)
| ManySlack.                  (* 'There can be only one slack bus (Type 1)' *)


(** The test of the loop of [add_line]: the two lines join the same pair of
    buses, in either direction. *)
Definition same_pair (line d : Line) : bool :=
  (line_from line =? line_from d) && (line_to line =? line_to d)
  || (line_from line =? line_to d) && (line_to line =? line_from d).

(** [add_line] once the dialog is accepted with [data]. *)
Definition add_line (bus_data : list Bus) (line_data : list Line) (data : option Line)
    : list Line * option notice :=
  match bus_data with
  | [] => (line_data, Some AddBusesFirst)
  | _ :: _ =>
    match data with
    | None => (line_data, None)
    | Some d =>
      if existsb (fun line => same_pair line d) line_data
      then (line_data, Some (LineExists (line_from d) (line_to d)))
      else if line_from d =? line_to d then (line_data, Some SameBus)
      else (line_data ++ [d], None)
    end
  end.

(** The slack card of [update_dashboard]: the number of the first bus of
    type 1, [None] standing for 'Not Set'. *)
Definition slack_bus (bus_data : list Bus) : option Z :=
  bus_id <$> List.find (fun bus => bus_type bus =? 1) bus_data.

(** [sum(1 for bus in self.bus_data if int(bus[1]) == 1)] *)
Definition slack_count (bus_data : list Bus) : nat :=
  length (List.filter (fun bus => bus_type bus =? 1) bus_data).

(** How [run_analysis] ends: with a warning before any solver is built, in
    the [except] clause (status 'Failed'), or at the end of the [try] block
    (status 'Converged', message 'Converged in {iterations} iterations'). *)
Inductive outcome : Type :=
| Rejected (n : notice)
| Failed (e : exn)
| Converged (method : string) (iterations : nat).

Section RunAnalysis.
Context {R : Runtime}.

(** [display_results] fills widgets and draws charts; here it is any
    function of what the window holds that returns or raises. *)
Variable display_results :
  list Bus -> list Line -> string -> list complex -> list IterRecord -> result unit.

(** The solver [run_analysis] builds and its call of [solve()] with the
    default arguments; the tables of the window have eight columns. *)
Definition run_solver (method : string) (bus_data : list Bus) (line_data : list Line)
    : result (list complex * list IterRecord) :=
  if String.eqb method "Newton-Raphson"
  then NRLoadFlow.solve bus_data line_data 1e-6 20
  else snd (GaussSeidel.solve (GaussSeidel.init bus_data 8 line_data 1) 1e-6 100 1).

Definition run_analysis (bus_data : list Bus) (line_data : list Line) (method : string)
    : outcome :=
  match bus_data, line_data with
  | [], _ => Rejected NoBus
  | _ :: _, [] => Rejected NoLine
  | _ :: _, _ :: _ =>
    if (slack_count bus_data =? 0)%nat then Rejected NoSlack
    else if (1 <? slack_count bus_data)%nat then Rejected ManySlack
    else
      match (r <- run_solver method bus_data line_data ;;
             _ <- display_results bus_data line_data method r.1 r.2 ;;
             Ok r) with
      | Ok (V_final, iter_data) => Converged method (length iter_data)
      | Raise e => Failed e
      end
  end.
End RunAnalysis.
End GUI.


(** No line of the table joins a bus to itself, and no two lines join the
    same pair of buses. *)
Definition simple_lines (line_data : list Line) : Prop :=
  Forall (fun l => line_from l <> line_to l) line_data
  /\ forall (i j : nat) (li lj : Line),
       line_data !! i = Some li -> line_data !! j = Some lj -> i <> j ->
       GUI.same_pair li lj = false.

(** A table on which Gauss-Seidel oscillates: a load of 4 + 2j p.u. behind a
    reactance of 0.5 p.u. *)
Definition bus_data_overload : list Bus :=
  [ mk_bus 1 1 1 0 0 0 0 0;
    mk_bus 2 3 1 0 0 0 4 2 ].
Definition line_data_overload : list Line := [ mk_line 1 2 0 0.5 0 ].

(* ================================================================== *)
(** * Properties *)

Section Monad.
Lemma bind_Ok {A B} (m : result A) (k : A -> result B) (b : B) :
    bind m k = Ok b -> exists a, m = Ok a /\ k a = Ok b.
Proof. destruct m as [a|e]; simpl; [eauto | discriminate]. Qed.

  (** An invariant of the body of a raising loop holds when the loop ends. *)
Lemma foldM_invariant {A S} (P : S -> Prop) (f : S -> A -> result S) (l : list A) :
    (forall s a s', P s -> f s a = Ok s' -> P s') ->
    forall s s', P s -> foldM f l s = Ok s' -> P s'.
Proof.
    intros Hstep. induction l as [|a l IH]; simpl; intros s s' Hs Hrun.
    - injection Hrun as <-. exact Hs.
    - apply bind_Ok in Hrun as (s1 & H1 & H2). eauto.
Qed.

(** An exception of a raising loop is one its body raised. *)
Lemma foldM_raise {A S} (P : exn -> Prop) (f : S -> A -> result S) (l : list A) :
  (forall s a e, f s a = Raise e -> P e) ->
  forall s e, foldM f l s = Raise e -> P e.
Proof.
  intros Hbody. induction l as [|a l IH]; simpl; intros s e Hrun; [discriminate|].
  destruct (f s a) as [s1|e1] eqn:E; simpl in Hrun; [eauto|].
  injection Hrun as <-. eauto.
Qed.
End Monad.

Section MatrixFacts.
Lemma mget_mupd (Y : matrix) (a b : nat) (f : complex -> complex) (p q : nat) :
    mget (mupd Y a b f) p q
    = if decide (p = a /\ q = b) then f <$> mget Y p q else mget Y p q.
Proof.
    unfold mget, mupd. destruct (decide (p = a)) as [->|Hpa].
    - rewrite list_lookup_alter_eq. destruct (Y !! a) as [row|]; simpl.
      + destruct (decide (q = b)) as [->|Hqb].
        * rewrite list_lookup_alter_eq. by rewrite decide_True.
        * rewrite list_lookup_alter_ne by done. rewrite decide_False; [done | tauto].
      + by case_decide.
    - rewrite list_lookup_alter_ne by done. rewrite decide_False; [done | tauto].
Qed.

Lemma entry_mget (Y : matrix) (a b : nat) : entry Y a b = default c0 (mget Y a b).
Proof.
    unfold entry, mget. rewrite !list_lookup_total_alt.
    by destruct (Y !! a) as [row|].
Qed.

Lemma mget_symmetric_entry (Y : matrix) : mget_symmetric Y -> symmetric Y.
Proof. intros H a b. by rewrite !entry_mget, (H a b). Qed.

Lemma mget_zeros (n a b : nat) :
    mget (zeros n) a b = if decide (a < n /\ b < n)%nat then Some c0 else None.
Proof.
    unfold mget, zeros. case_decide as Hab.
    - destruct Hab as [Ha Hb].
      rewrite (lookup_replicate_2 _ _ _ Ha). simpl. by rewrite lookup_replicate_2.
    - destruct (decide (a < n)%nat) as [Ha|Ha].
      + rewrite (lookup_replicate_2 _ _ _ Ha). simpl.
        apply lookup_replicate_None. lia.
      + replace (replicate n (replicate n c0) !! a) with (@None (list complex)); [done|].
        symmetry. apply lookup_replicate_None. lia.
Qed.

Lemma zeros_symmetric (n : nat) : mget_symmetric (zeros n).
Proof.
    intros a b. rewrite !mget_zeros.
    repeat case_decide; try done; lia.
Qed.

  (** The four accumulations of one line keep the matrix symmetric. *)
Lemma stamp_line_symmetric (nb : nat) (Y Y' : matrix) (i j : Z) (y bs : complex) :
    mget_symmetric Y -> stamp_line nb Y i j y bs = Ok Y' -> mget_symmetric Y'.
Proof.
    unfold stamp_line, mat_update. intros Hsym Hrun.
    destruct (py_index nb i) as [a|]; [|discriminate].
    destruct (py_index nb j) as [b|]; [|discriminate].
    simpl in Hrun. injection Hrun as <-. intros p q.
    rewrite !mget_mupd, (Hsym q p).
    repeat case_decide; destruct_and?; simplify_eq; try tauto; try done.
Qed.
End MatrixFacts.

Section BuildYbus.
Context {R : Runtime}.

Lemma NR_build_ybus_line_symmetric nb Y ws l Y' ws' :
  mget_symmetric Y ->
  NRLoadFlow.build_ybus_line nb (Y, ws) l = Ok (Y', ws') -> mget_symmetric Y'.
Proof.
  unfold NRLoadFlow.build_ybus_line. intros Hsym Hrun.
  destruct (NRLoadFlow.near_zero _ _).
  - by injection Hrun as <- _.
  - apply bind_Ok in Hrun as (y & _ & Hrun).
    apply bind_Ok in Hrun as (Y1 & Hstamp & Hrun).
    injection Hrun as <- _. eauto using stamp_line_symmetric.
Qed.

Lemma NR_build_ybus_symmetric nb lines Y ws :
  NRLoadFlow.build_ybus nb lines = Ok (Y, ws) -> mget_symmetric Y.
Proof.
  unfold NRLoadFlow.build_ybus. intros Hrun.
  change (mget_symmetric (fst (Y, ws))).
  eapply (foldM_invariant (fun acc => mget_symmetric (fst acc))); [| |exact Hrun].
  - intros [Y0 w0] l [Y1 w1] H0 H1. simpl in *.
    eapply NR_build_ybus_line_symmetric; eauto.
  - apply zeros_symmetric.
Qed.

Lemma GS_build_ybus_symmetric nb lines Y :
  GaussSeidel.build_ybus nb lines = Ok Y -> mget_symmetric Y.
Proof.
  unfold GaussSeidel.build_ybus.
  apply (foldM_invariant mget_symmetric); [|apply zeros_symmetric].
  intros Y0 l Y1 Hsym Hrun. unfold GaussSeidel.build_ybus_line in Hrun.
  apply bind_Ok in Hrun as (y & _ & Hstamp). eauto using stamp_line_symmetric.
Qed.

(** The Newton-Raphson builder skips a line whose [r] and [x] are both below
    1e-12 in magnitude: it records one warning, raises nothing (whatever the
    bus ids are) and returns the matrix it was given. *)
Lemma NR_zero_impedance_line_skipped nb Y ws l :
  NRLoadFlow.near_zero (line_r l) (line_x l) = true ->
  NRLoadFlow.build_ybus_line nb (Y, ws) l
  = Ok (Y, ws ++ [NRLoadFlow.ZeroImpedanceLine (line_from l) (line_to l)]).
Proof.
  unfold NRLoadFlow.build_ybus_line. intros ->.
  by replace (line_from l - 1 + 1) with (line_from l) by lia;
     replace (line_to l - 1 + 1) with (line_to l) by lia.
Qed.

(** The guard of the Newton-Raphson builder rules out the divisor for which
    [1 / z] raises. *)
Lemma near_zero_false_divisor r x :
  NRLoadFlow.near_zero r x = false -> py_zero_divisor (Cplx r x) = false.
Proof.
  unfold NRLoadFlow.near_zero, py_zero_divisor, eps_z. cbn [re im].
  rewrite !FloatAxioms.ltb_spec, FloatAxioms.leb_spec, FloatAxioms.eqb_spec,
    !FloatAxioms.abs_spec.
  destruct (Prim2SF r) as [sr|sr| |sr mr er].
  - destruct (Prim2SF x) as [sx|sx| |sx mx ex].
    + vm_compute. congruence.
    + intros _. apply andb_false_iff. left. reflexivity.
    + intros _. apply andb_false_iff. left. reflexivity.
    + intros _. apply andb_false_iff. left. reflexivity.
  - intros _. apply andb_false_iff. right. reflexivity.
  - intros _. apply andb_false_iff. right. reflexivity.
  - intros _. apply andb_false_iff. right. reflexivity.
Qed.

Lemma stamp_line_raises nb Y i j y bs e :
  stamp_line nb Y i j y bs = Raise e -> e = IndexError.
Proof.
  unfold stamp_line, mat_update.
  destruct (py_index nb i), (py_index nb j); simpl; congruence.
Qed.

(** The only exception the Newton-Raphson builder can raise is the
    IndexError of a bus id outside the table: its guard keeps [1 / z] from
    dividing by zero. *)
Lemma NR_build_ybus_raises nb lines e :
  NRLoadFlow.build_ybus nb lines = Raise e -> e = IndexError.
Proof.
  unfold NRLoadFlow.build_ybus. intros Hrun.
  eapply (foldM_raise (fun e0 => e0 = IndexError)); [|exact Hrun].
  intros [Y ws] l e'. unfold NRLoadFlow.build_ybus_line.
  destruct (NRLoadFlow.near_zero _ _) eqn:Hnz; [discriminate|].
  unfold py_recip. rewrite (near_zero_false_divisor _ _ Hnz). simpl.
  destruct (stamp_line _ _ _ _ _ _) as [Y'|e1] eqn:Hs; simpl; [discriminate|].
  intros Heq. injection Heq as <-. eauto using stamp_line_raises.
Qed.

(** C7 -- the admittance matrix either builder returns is symmetric:
    Y[a][b] and Y[b][a] hold the same value for every pair of indices. *)
Theorem C7_ybus_symmetric (nb : nat) (lines : list Line) (Y : matrix) :
  built_by nb lines Y -> symmetric Y.
Proof.
  intros [[ws Hnr] | Hgs]; apply mget_symmetric_entry.
  - eapply NR_build_ybus_symmetric; eauto.
  - eapply GS_build_ybus_symmetric; eauto.
Qed.

(** C3 -- on the two-bus table with the single line (1, 2, r = 0, x = 0,
    b = 0) the Gauss-Seidel builder raises ZeroDivisionError, which [solve]
    re-raises as a RuntimeError, where the Newton-Raphson builder returns the
    zero matrix and one warning. *)
Theorem C3_gauss_seidel_zero_impedance_raises (tol : float) (max_iter : Z) (alpha : float) :
  GaussSeidel.build_ybus 2 [zero_impedance_line] = Raise ZeroDivisionError
  /\ snd (GaussSeidel.solve
            (GaussSeidel.init bus_data_2bus 8 [zero_impedance_line] 1) tol max_iter alpha)
     = Raise (RuntimeError ZeroDivisionError)
  /\ NRLoadFlow.build_ybus 2 [zero_impedance_line]
     = Ok (zeros 2, [NRLoadFlow.ZeroImpedanceLine 1 2]).
Proof. repeat split. Qed.
End BuildYbus.

(** C7, on the 3-bus sample table. *)
Lemma C7_ybus_symmetric_witness :
  match NRLoadFlow.build_ybus (R := Reference.runtime) 3 line_data_3bus with
  | Ok (Y, _) => symmetric Y
  | Raise _ => False
  end.
Proof.
  destruct (NRLoadFlow.build_ybus 3 line_data_3bus) as [[Y ws]|e] eqn:E.
  - apply (C7_ybus_symmetric (R := Reference.runtime) 3 line_data_3bus Y).
    left. exists ws. exact E.
  - vm_compute in E. discriminate E.
Defined.

(* ------------------------------------------------------------------ *)
(** ** Initial voltages and the solver classes *)

Section Initial.
Context {R : Runtime}.

(** C9 -- the starting voltage of a PQ bus in Newton-Raphson and of every
    non-slack bus in Gauss-Seidel is the constant 0.95 - 0.05j, whatever the
    bus row holds; a Newton-Raphson PV bus starts at its magnitude set-point
    with angle 0. *)
Theorem C9_initial_voltage (bus_data : list Bus) (i : nat) (b : Bus) :
  bus_data !! i = Some b ->
  let '(_, V, _, _) := NRLoadFlow.extract_bus_params bus_data in
  (bus_type b = 3 -> V !! i = Some (Cplx 0.95 (-0.05)))
  /\ (bus_type b = 2 -> V !! i = Some (Cplx (bus_vm b) 0))
  /\ (bus_type b <> 1 ->
      GaussSeidel.initial_voltages bus_data !! i = Some (Cplx 0.95 (-0.05))).
Proof.
  intros Hb. unfold NRLoadFlow.extract_bus_params, GaussSeidel.initial_voltages.
  rewrite !list_lookup_fmap, Hb. simpl.
  unfold NRLoadFlow.initial_voltage, GaussSeidel.initial_voltage.
  repeat split.
  - by intros ->.
  - by intros ->.
  - intros Hne. destruct (Z.eqb_spec (bus_type b) 1); [contradiction | done].
Qed.

(** C1 -- only two of the three classes bind [solve]: looking the name up
    on a FastDecoupled instance fails, so a call raises AttributeError for
    every input, and the fields [__init__] sets ([converged = False], an
    empty trace, no voltages) are never changed. *)
Theorem C1_fast_decoupled_binds_no_solve
    (bus_data : list Bus) (line_data : list Line) (Sbase : float) :
  has_attribute NRLoadFlowC "solve" = true
  /\ has_attribute GaussSeidelC "solve" = true
  /\ has_attribute FastDecoupledC "solve" = false
  /\ call_solve FastDecoupledC bus_data line_data = Raise AttributeError
  /\ FastDecoupled.converged (FastDecoupled.init bus_data line_data Sbase) = false
  /\ FastDecoupled.iter_data (FastDecoupled.init bus_data line_data Sbase) = []
  /\ FastDecoupled.V_final (FastDecoupled.init bus_data line_data Sbase) = None.
Proof. repeat split; vm_compute; reflexivity. Qed.
End Initial.

(** C9, on the 3-bus sample table: bus 3 is the PQ bus. *)
Lemma C9_initial_voltage_witness :
  let '(_, V, _, _) := NRLoadFlow.extract_bus_params (R := Reference.runtime) bus_data_3bus in
  (3 = 3 -> V !! 2%nat = Some (Cplx 0.95 (-0.05)))
  /\ (3 = 2 -> V !! 2%nat = Some (Cplx 1 0))
  /\ (3 <> 1 ->
      GaussSeidel.initial_voltages (R := Reference.runtime) bus_data_3bus !! 2%nat
      = Some (Cplx 0.95 (-0.05))).
Proof.
  apply (C9_initial_voltage (R := Reference.runtime) bus_data_3bus 2
           (mk_bus 3 3 1 0 0 0 0.8 0.4)).
  reflexivity.
Defined.

(** C1, refuted on the 3-bus sample table: the call yields no result at all,
    converged or not. *)
Lemma C1_fast_decoupled_counterexample :
  call_solve (R := Reference.runtime) FastDecoupledC bus_data_3bus line_data_3bus
  = Raise AttributeError
  /\ ~ exists r, call_solve (R := Reference.runtime) FastDecoupledC bus_data_3bus line_data_3bus
                 = Ok r.
Proof. split; [reflexivity | intros [r Hr]; discriminate Hr]. Qed.

(* ------------------------------------------------------------------ *)
(** ** Loops *)

Section LoopFacts.
Context {S : Type}.
Implicit Types (body : nat -> S -> S * flow) (its : list nat) (s : S).

(** What every iteration preserves, the whole loop preserves. *)
Lemma for_loop_invariant (P : S -> Prop) body its s :
  (forall it s0, P s0 -> P (fst (body it s0))) -> P s -> P (for_loop body its s).
Proof.
  intros Hstep. revert s. induction its as [|it its IH]; simpl; intros s Hs; [done|].
  specialize (Hstep it s Hs). destruct (body it s) as [s' [|]]; simpl in *; auto.
Qed.

(** The same, for invariants that mention the iteration index: [P k s] says
    that [s] is a state reached after [k] iterations starting at index [a]. *)
Lemma for_loop_counted (P : nat -> S -> Prop) (Q : S -> Prop) body (a n : nat) s :
  (forall k s0, P k s0 -> k < n ->
     match body (a + k) s0 with
     | (s1, Continue) => P (Datatypes.S k) s1
     | (s1, Break) => Q s1
     end)%nat ->
  (forall s0, P n s0 -> Q s0) ->
  P 0%nat s -> Q (for_loop body (seq a n) s).
Proof.
  revert a s P. induction n as [|n IH]; simpl; intros a s P Hstep Hend H0; [auto|].
  generalize (Hstep 0%nat s H0 ltac:(lia)). rewrite Nat.add_0_r.
  destruct (body a s) as [s1 [|]]; [|done].
  intros H1. apply (IH (Datatypes.S a) s1 (fun k => P (Datatypes.S k))); [| |done].
  - intros k s0 Hk Hlt. specialize (Hstep (Datatypes.S k) s0 Hk ltac:(lia)).
    by replace (Datatypes.S a + k)%nat with (a + Datatypes.S k)%nat by lia.
  - auto.
Qed.
End LoopFacts.

Section EnumerateFacts.
Lemma elem_of_enumerate {A} (l : list A) (k : nat) (x : A) :
  (k, x) ∈ enumerate l <-> l !! k = Some x.
Proof.
  unfold enumerate. rewrite elem_of_lookup_imap. split.
  - intros (i & y & Heq & Hi). by injection Heq as -> ->.
  - intros Hk. by exists k, x.
Qed.

Context {R : Runtime}.

Lemma elem_of_indices_where (p : Z -> bool) (types : list Z) (k : nat) :
  k ∈ NRLoadFlow.indices_where p types <->
  exists t, types !! k = Some t /\ p t = true.
Proof.
  unfold NRLoadFlow.indices_where. rewrite list_elem_of_fmap. split.
  - intros ([k' t] & -> & Hin). apply list_elem_of_filter in Hin as [Hp Hin].
    apply elem_of_enumerate in Hin. eauto.
  - intros (t & Hk & Hp). exists (k, t). split; [done|].
    apply list_elem_of_filter. split; [done|]. by apply elem_of_enumerate.
Qed.

(** A loop whose every step leaves entry [i] alone leaves it alone. *)
Lemma fold_left_frame {A B} (f : list A -> B -> list A) (l : list B)
    (V : list A) (i : nat) :
  (forall V0 b, b ∈ l -> f V0 b !! i = V0 !! i) ->
  fold_left f l V !! i = V !! i.
Proof.
  revert V. induction l as [|b l IH]; simpl; intros V Hstep; [done|].
  rewrite IH.
  - apply Hstep. left.
  - intros V0 b' Hin. apply Hstep. by right.
Qed.
End EnumerateFacts.

(* ------------------------------------------------------------------ *)
(** ** Slack invariance *)

Section SlackInvariance.
Context {R : Runtime}.

Lemma NR_not_slack_index (types : list Z) (i k : nat) :
  types !! i = Some 1 ->
  k ∈ NRLoadFlow.indices_where NRLoadFlow.is_pv types
      ++ NRLoadFlow.indices_where NRLoadFlow.is_pq types
  \/ k ∈ NRLoadFlow.indices_where NRLoadFlow.is_pq types ->
  k <> i.
Proof.
  intros Hi Hk ->. rewrite elem_of_app, !elem_of_indices_where in Hk.
  destruct Hk as [[Hk|Hk]|Hk]; destruct Hk as (t & Ht & Hp);
    rewrite Hi in Ht; injection Ht as <-; discriminate Hp.
Qed.

Lemma NR_update_voltages_slack it dX (types : list Z) (V : list complex) (i : nat) :
  types !! i = Some 1 ->
  NRLoadFlow.update_voltages it dX types V !! i = V !! i.
Proof.
  intros Hi. unfold NRLoadFlow.update_voltages, NRLoadFlow.update_magnitudes,
    NRLoadFlow.update_angles.
  rewrite fold_left_frame.
  - apply fold_left_frame. intros V0 [idx k] Hin%elem_of_enumerate.
    apply list_lookup_insert_ne, (NR_not_slack_index types i k Hi).
    left. apply list_elem_of_lookup. eauto.
  - intros V0 [idx k] Hin%elem_of_enumerate.
    apply list_lookup_insert_ne, (NR_not_slack_index types i k Hi).
    right. apply list_elem_of_lookup. eauto.
Qed.

(** One Newton-Raphson iteration writes no slack entry of [V]. *)
Lemma NR_iteration_slack Y types P_spec Q_spec tol it st (i : nat) :
  types !! i = Some 1 ->
  NRLoadFlow.st_V (NRLoadFlow.iteration Y types P_spec Q_spec tol it st).1 !! i
  = NRLoadFlow.st_V st !! i.
Proof.
  intros Hi. unfold NRLoadFlow.iteration.
  repeat (case_match; simpl; try done).
  by apply NR_update_voltages_slack.
Qed.

Lemma GS_update_pq_frame c k sum (V : list complex) (i : nat) :
  k <> i -> GaussSeidel.update_pq c k sum V !! i = V !! i.
Proof.
  intros Hne. unfold GaussSeidel.update_pq.
  rewrite list_lookup_insert_ne by done.
  case_match; [by apply list_lookup_insert_ne | done].
Qed.

Lemma GS_update_pv_frame c k sum (V : list complex) (i : nat) :
  k <> i -> GaussSeidel.update_pv c k sum V !! i = V !! i.
Proof.
  intros Hne. unfold GaussSeidel.update_pv, GaussSeidel.reseed_pv.
  rewrite list_lookup_insert_ne by done.
  case_match; [by apply list_lookup_insert_ne | done].
Qed.

Lemma GS_bus_step_slack c V_prev s (k i : nat) :
  GaussSeidel.s_types c !! i = Some 1 ->
  GaussSeidel.sw_V (GaussSeidel.bus_step c V_prev s k) !! i = GaussSeidel.sw_V s !! i.
Proof.
  intros Hi. unfold GaussSeidel.bus_step.
  destruct (Z.eqb_spec (GaussSeidel.s_types c !!! k) 1) as [H1|H1]; [done|]. simpl.
  assert (k <> i) as Hne.
  { intros ->. apply H1. by apply list_lookup_total_correct. }
  repeat case_match; auto using GS_update_pq_frame, GS_update_pv_frame.
Qed.

(** One Gauss-Seidel sweep writes no slack entry of [V]. *)
Lemma GS_iteration_slack c tol it st (i : nat) :
  GaussSeidel.s_types c !! i = Some 1 ->
  GaussSeidel.st_V (GaussSeidel.iteration c tol it st).1 !! i
  = GaussSeidel.st_V st !! i.
Proof.
  intros Hi. unfold GaussSeidel.iteration.
  assert (GaussSeidel.sw_V (GaussSeidel.sweep c (GaussSeidel.st_V st)) !! i
          = GaussSeidel.st_V st !! i) as Hsweep.
  { unfold GaussSeidel.sweep.
    generalize (GaussSeidel.st_V st) at 1 as V_prev.
    intros V_prev.
    set (s0 := GaussSeidel.Build_SweepState _ _ _).
    change (GaussSeidel.st_V st !! i) with (GaussSeidel.sw_V s0 !! i).
    generalize s0. clear s0.
    induction (seq 0 (length (GaussSeidel.st_V st))) as [|k l IH]; simpl; intros s0; [done|].
    rewrite IH. by apply GS_bus_step_slack. }
  by case_match.
Qed.

(** Hence the slack entry Newton-Raphson returns is the set-point it was
    initialised with. *)
Lemma NR_run_slack_fixed bus_data line_data tol max_iter st (i : nat) (b : Bus) :
  bus_data !! i = Some b -> bus_type b = 1 ->
  NRLoadFlow.run bus_data line_data tol max_iter = Ok st ->
  NRLoadFlow.st_V st !! i = Some (NRLoadFlow.slack_voltage b).
Proof.
  intros Hb Ht. unfold NRLoadFlow.run. intros Hrun.
  apply bind_Ok in Hrun as (Yw & _ & Hrun). simpl in Hrun. injection Hrun as <-.
  apply (for_loop_invariant
           (fun s => NRLoadFlow.st_V s !! i = Some (NRLoadFlow.slack_voltage b))).
  - intros it s0 <-. apply NR_iteration_slack. by rewrite list_lookup_fmap, Hb, <- Ht.
  - simpl. rewrite list_lookup_fmap, Hb. simpl.
    unfold NRLoadFlow.initial_voltage. by rewrite Ht.
Qed.

(** The same for Gauss-Seidel. *)
Lemma GS_run_slack_fixed self tol max_iter alpha Y st (i : nat) (b : Bus) :
  GaussSeidel.bus_data self !! i = Some b -> bus_type b = 1 ->
  GaussSeidel.run self tol max_iter alpha = Ok (Y, st) ->
  GaussSeidel.st_V st !! i = Some (GaussSeidel.slack_voltage b).
Proof.
  intros Hb Ht. unfold GaussSeidel.run. intros Hrun.
  apply bind_Ok in Hrun as (Y0 & _ & Hrun). injection Hrun as <- <-.
  apply (for_loop_invariant
           (fun s => GaussSeidel.st_V s !! i = Some (GaussSeidel.slack_voltage b))).
  - intros it s0 <-. apply GS_iteration_slack. simpl.
    by rewrite list_lookup_fmap, Hb, <- Ht.
  - simpl. unfold GaussSeidel.initial_voltages. rewrite list_lookup_fmap, Hb. simpl.
    unfold GaussSeidel.initial_voltage. by rewrite Ht.
Qed.
End SlackInvariance.

(** C4 -- an iteration of either solve loop leaves the voltage of a slack
    bus (type code 1) exactly as it was: only non-slack entries of the
    voltage vector are written. *)
Theorem C4_slack_voltage_unchanged {R : Runtime} (types : list Z) (i : nat) :
  types !! i = Some 1 ->
  (forall Y P_spec Q_spec tol it st,
     NRLoadFlow.st_V (NRLoadFlow.iteration Y types P_spec Q_spec tol it st).1 !! i
     = NRLoadFlow.st_V st !! i)
  /\ (forall c tol it st,
        GaussSeidel.s_types c = types ->
        GaussSeidel.st_V (GaussSeidel.iteration c tol it st).1 !! i
        = GaussSeidel.st_V st !! i).
Proof.
  intros Hi. split.
  - intros. by apply NR_iteration_slack.
  - intros c tol it st <-. by apply GS_iteration_slack.
Qed.

(** C4, for the type column of the 3-bus sample table: bus 1 is the slack. *)
Lemma C4_slack_voltage_unchanged_witness :
  (forall Y P_spec Q_spec tol it st,
     NRLoadFlow.st_V
       (NRLoadFlow.iteration (R := Reference.runtime) Y [1; 2; 3] P_spec Q_spec tol it st).1
       !! 0%nat
     = NRLoadFlow.st_V st !! 0%nat)
  /\ (forall c tol it st,
        GaussSeidel.s_types c = [1; 2; 3] ->
        GaussSeidel.st_V (GaussSeidel.iteration (R := Reference.runtime) c tol it st).1 !! 0%nat
        = GaussSeidel.st_V st !! 0%nat).
Proof.
  apply (C4_slack_voltage_unchanged (R := Reference.runtime) [1; 2; 3] 0).
  reflexivity.
Defined.

(* ------------------------------------------------------------------ *)
(** ** The Newton-Raphson loop *)

Section NRLoop.
Context {R : Runtime}.

(** C5 -- in an iteration whose mismatch vector is not empty,
    Newton-Raphson declares convergence if and only if the maximum absolute
    mismatch is below [tol] and the RMS mismatch is below [tol / 10];
    otherwise it goes on to the Jacobian and the update. *)
Theorem C5_nr_convergence_test (Y : matrix) (types : list Z)
    (P_spec Q_spec : list float) (tol : float) (it : nat)
    (st : NRLoadFlow.LoopState) :
  NRLoadFlow.calc_power_mismatch Y (NRLoadFlow.st_V st) P_spec Q_spec types <> [] ->
  NRLoadFlow.st_converged st = false ->
  NR_convergence_rule Y types P_spec Q_spec tol it st.
Proof.
  intros Hne Hconv. unfold NR_convergence_rule, NRLoadFlow.iteration.
  set (mismatch := NRLoadFlow.calc_power_mismatch _ _ _ _ _) in *.
  destruct (Nat.eqb_spec (length mismatch) 0) as [H0|H0].
  { destruct mismatch; [done | discriminate H0]. }
  unfold NRLoadFlow.converged_test.
  destruct (np_max (PrimFloat.abs <$> mismatch) <? tol)%float eqn:E1;
    destruct (NRLoadFlow.rms mismatch <? tol / 10)%float eqn:E2; simpl;
    try (destruct (linalg_cond _) as [k|];
         [destruct (linalg_solve _ _) as [dX|] |]; simpl);
    rewrite ?Hconv; repeat split; intros; destruct_and?; congruence.
Qed.

(** The loop goes on to a next iteration only with [converged] as it was:
    every iteration starts with [converged] still false. *)
Lemma NR_iteration_continue Y types P_spec Q_spec tol it st :
  (NRLoadFlow.iteration Y types P_spec Q_spec tol it st).2 = Continue ->
  NRLoadFlow.st_converged (NRLoadFlow.iteration Y types P_spec Q_spec tol it st).1
  = NRLoadFlow.st_converged st.
Proof.
  unfold NRLoadFlow.iteration. repeat (case_match; simpl); congruence.
Qed.

(** With the slack bus alone there is no unknown: the mismatch vector is
    empty. *)
Lemma NR_mismatch_slack_only Y V P_spec Q_spec :
  NRLoadFlow.calc_power_mismatch Y V P_spec Q_spec [1] = [].
Proof.
  reflexivity.
Qed.

(** C6 -- on a table with the slack bus only, Newton-Raphson allowed at
    least one iteration leaves the loop converged in its first pass, before
    any record is appended, and returns the slack set-point
    [|V| * exp(1j * radians(angle))] with an empty trace.  Allowed none
    ([max_iter <= 0]) it leaves the loop with [converged] false and [max_mis]
    unbound, and the closing report raises UnboundLocalError: nothing is
    returned. *)
Theorem C6_slack_only_network (b : Bus) (lines : list Line) (tol : float)
    (max_iter : Z) (Yw : matrix * list NRLoadFlow.warning) :
  bus_type b = 1 ->
  NRLoadFlow.build_ybus 1 lines = Ok Yw ->
  (0 < max_iter ->
   NRLoadFlow.run [b] lines tol max_iter
   = Ok {| NRLoadFlow.st_V := [NRLoadFlow.slack_voltage b];
           NRLoadFlow.st_iteration_data := [];
           NRLoadFlow.st_converged := true;
           NRLoadFlow.st_max_mis := None |}
   /\ NRLoadFlow.solve [b] lines tol max_iter = Ok ([NRLoadFlow.slack_voltage b], []))
  /\ (max_iter <= 0 ->
      NRLoadFlow.run [b] lines tol max_iter
      = Ok {| NRLoadFlow.st_V := [NRLoadFlow.slack_voltage b];
              NRLoadFlow.st_iteration_data := [];
              NRLoadFlow.st_converged := false;
              NRLoadFlow.st_max_mis := None |}
      /\ NRLoadFlow.solve [b] lines tol max_iter = Raise UnboundLocalError).
Proof.
  intros Hb Hbuild. split; intros Hmax.
  - assert (NRLoadFlow.run [b] lines tol max_iter
            = Ok {| NRLoadFlow.st_V := [NRLoadFlow.slack_voltage b];
                    NRLoadFlow.st_iteration_data := [];
                    NRLoadFlow.st_converged := true;
                    NRLoadFlow.st_max_mis := None |}) as Hrun.
    { unfold NRLoadFlow.run. simpl length. rewrite Hbuild. simpl.
      unfold NRLoadFlow.initial_voltage. rewrite Hb. simpl.
      unfold py_range. destruct (Z.to_nat max_iter) as [|n] eqn:En; [lia|].
      simpl. reflexivity. }
    split; [exact Hrun|]. unfold NRLoadFlow.solve. rewrite Hrun. reflexivity.
  - assert (NRLoadFlow.run [b] lines tol max_iter
            = Ok {| NRLoadFlow.st_V := [NRLoadFlow.slack_voltage b];
                    NRLoadFlow.st_iteration_data := [];
                    NRLoadFlow.st_converged := false;
                    NRLoadFlow.st_max_mis := None |}) as Hrun.
    { unfold NRLoadFlow.run. simpl length. rewrite Hbuild. simpl.
      unfold NRLoadFlow.initial_voltage. rewrite Hb. simpl.
      unfold py_range. replace (Z.to_nat max_iter) with 0%nat by lia.
      reflexivity. }
    split; [exact Hrun|]. unfold NRLoadFlow.solve. rewrite Hrun. reflexivity.
Qed.
End NRLoop.

(** C5, on the 3-bus sample table at the start of the first iteration. *)
Lemma C5_nr_convergence_test_witness :
  NR_convergence_rule (R := Reference.runtime) Ybus_3bus [1; 2; 3]
    [0; 0.5; -0.8]%float [0; 0; -0.4]%float 1e-6 0
    {| NRLoadFlow.st_V := [Cplx 1.05 0; Cplx 1.03 0; Cplx 0.95 (-0.05)];
       NRLoadFlow.st_iteration_data := [];
       NRLoadFlow.st_converged := false;
       NRLoadFlow.st_max_mis := None |}.
Proof.
  apply (C5_nr_convergence_test (R := Reference.runtime)).
  - vm_compute. discriminate.
  - reflexivity.
Defined.

(** C6, on the one-bus table with no line: the default budget, and a budget
    of zero. *)
Lemma C6_slack_only_network_witness :
  NRLoadFlow.solve (R := Reference.runtime) bus_data_slack_only [] 1e-6 20
  = Ok ([NRLoadFlow.slack_voltage (R := Reference.runtime) (mk_bus 1 1 1.05 0 0 0 0 0)], [])
  /\ NRLoadFlow.solve (R := Reference.runtime) bus_data_slack_only [] 1e-6 0
     = Raise UnboundLocalError.
Proof.
  split.
  - apply (C6_slack_only_network (R := Reference.runtime) (mk_bus 1 1 1.05 0 0 0 0 0) []
             1e-6 20 (zeros 1, [])); [reflexivity|reflexivity|lia].
  - apply (C6_slack_only_network (R := Reference.runtime) (mk_bus 1 1 1.05 0 0 0 0 0) []
             1e-6 0 (zeros 1, [])); [reflexivity|reflexivity|lia].
Defined.

(* ------------------------------------------------------------------ *)
(** ** What [solve] returns *)

Section SolveReturns.
Context {R : Runtime}.

(** After any Newton-Raphson iteration, [converged] is set or [max_mis] is
    bound. *)
Lemma NR_iteration_binds_max_mis Y types P_spec Q_spec tol it st :
  let st' := (NRLoadFlow.iteration Y types P_spec Q_spec tol it st).1 in
  NRLoadFlow.st_converged st' = true \/ is_Some (NRLoadFlow.st_max_mis st').
Proof.
  unfold NRLoadFlow.iteration. cbv zeta.
  destruct (length _ =? 0)%nat; simpl; [by left|].
  destruct (NRLoadFlow.converged_test _ _ _); simpl; [right; eauto|].
  destruct (linalg_cond _); [|right; eauto].
  destruct (linalg_solve _ _); simpl; eauto.
Qed.

Lemma NR_iteration_appends_at_most_one Y types P_spec Q_spec tol it st :
  let st' := (NRLoadFlow.iteration Y types P_spec Q_spec tol it st).1 in
  (length (NRLoadFlow.st_iteration_data st')
   <= Datatypes.S (length (NRLoadFlow.st_iteration_data st)))%nat.
Proof.
  unfold NRLoadFlow.iteration.
  repeat (case_match; simpl); rewrite ?length_app; simpl; lia.
Qed.

Lemma NR_loop_report_defined Y types P_spec Q_spec tol (n : nat) st :
  (0 < n)%nat ->
  let st' := for_loop (NRLoadFlow.iteration Y types P_spec Q_spec tol) (seq 0 n) st in
  NRLoadFlow.st_converged st' = true \/ is_Some (NRLoadFlow.st_max_mis st').
Proof.
  intros Hn. destruct n as [|n]; [lia|]. simpl.
  pose proof (NR_iteration_binds_max_mis Y types P_spec Q_spec tol 0 st) as H0.
  simpl in H0.
  destruct (NRLoadFlow.iteration Y types P_spec Q_spec tol 0 st) as [s1 [|]]; [|done].
  apply (for_loop_invariant
           (fun s => NRLoadFlow.st_converged s = true \/ is_Some (NRLoadFlow.st_max_mis s)));
    [|done].
  intros it s0 _. apply NR_iteration_binds_max_mis.
Qed.

Lemma NR_loop_trace_length Y types P_spec Q_spec tol (n : nat) st :
  NRLoadFlow.st_iteration_data st = [] ->
  (length (NRLoadFlow.st_iteration_data
             (for_loop (NRLoadFlow.iteration Y types P_spec Q_spec tol) (seq 0 n) st))
   <= n)%nat.
Proof.
  intros Hnil.
  apply (for_loop_counted
           (fun k s => (length (NRLoadFlow.st_iteration_data s) <= k)%nat)
           (fun s => (length (NRLoadFlow.st_iteration_data s) <= n)%nat)).
  - intros k s0 Hk Hlt.
    pose proof (NR_iteration_appends_at_most_one Y types P_spec Q_spec tol (0 + k) s0) as H1.
    simpl in H1. destruct (NRLoadFlow.iteration _ _ _ _ _ _ s0) as [s1 [|]]; simpl in *; lia.
  - auto.
  - rewrite Hnil. simpl. lia.
Qed.

(** A Gauss-Seidel loop that ends with [converged] still false has run all
    its iterations, appending one record in each. *)
Lemma GS_loop_records c tol (n : nat) st :
  GaussSeidel.st_converged st = false ->
  let st' := for_loop (GaussSeidel.iteration c tol) (seq 0 n) st in
  exists new, GaussSeidel.st_iter_data st' = GaussSeidel.st_iter_data st ++ new
              /\ (length new <= n)%nat
              /\ (GaussSeidel.st_converged st' = false -> length new = n).
Proof.
  intros Hconv.
  apply (for_loop_counted
           (fun k s => GaussSeidel.st_converged s = false
                       /\ exists new, GaussSeidel.st_iter_data s
                                      = GaussSeidel.st_iter_data st ++ new
                                      /\ length new = k)
           (fun s => exists new, GaussSeidel.st_iter_data s
                                 = GaussSeidel.st_iter_data st ++ new
                                 /\ (length new <= n)%nat
                                 /\ (GaussSeidel.st_converged s = false
                                     -> length new = n))).
  - intros k s0 (Hc & new & Hdata & Hlen) Hlt. unfold GaussSeidel.iteration.
    destruct (_ <? tol)%float; simpl.
    + eexists. rewrite Hdata, <- app_assoc. split; [done|].
      rewrite length_app. simpl. split; [lia|discriminate].
    + split; [done|]. eexists. rewrite Hdata, <- app_assoc. split; [done|].
      rewrite length_app. simpl. lia.
  - intros s0 (_ & new & Hdata & Hlen). exists new. split; [done|]. split; [lia|done].
  - split; [done|]. exists []. by rewrite app_nil_r.
Qed.

Lemma GS_loop_exhausted c tol (n : nat) st :
  GaussSeidel.st_converged st = false ->
  let st' := for_loop (GaussSeidel.iteration c tol) (seq 0 n) st in
  GaussSeidel.st_converged st' = false ->
  exists new, GaussSeidel.st_iter_data st' = GaussSeidel.st_iter_data st ++ new
              /\ length new = n.
Proof.
  intros Hconv.
  apply (for_loop_counted
           (fun k s => GaussSeidel.st_converged s = false
                       /\ exists new, GaussSeidel.st_iter_data s
                                      = GaussSeidel.st_iter_data st ++ new
                                      /\ length new = k)
           (fun s => GaussSeidel.st_converged s = false ->
                     exists new, GaussSeidel.st_iter_data s
                                 = GaussSeidel.st_iter_data st ++ new
                                 /\ length new = n)).
  - intros k s0 (Hc & new & Hdata & Hlen) Hlt. unfold GaussSeidel.iteration.
    destruct (_ <? tol)%float; simpl; [discriminate|].
    split; [done|]. eexists. rewrite Hdata, <- app_assoc. split; [done|].
    rewrite length_app. simpl. lia.
  - intros s0 (_ & Hnew) _. exact Hnew.
  - split; [done|]. exists []. by rewrite app_nil_r.
Qed.

(** C2 -- whether or not the loop converged, [solve] returns normally the
    pair (final voltages, iteration trace) and nothing else, provided the
    admittance matrix could be built and, for Newton-Raphson, at least one
    iteration is allowed.  The Newton-Raphson trace has at most [max_iter]
    records.  The Gauss-Seidel trace is the records the instance already
    held followed by at most [max_iter] new ones, exactly [max_iter] when the
    run did not converge. *)
Theorem C2_solve_returns_pair :
  (forall bus_data line_data tol max_iter Yw,
     1 <= max_iter ->
     NRLoadFlow.build_ybus (length bus_data) line_data = Ok Yw ->
     exists st,
       NRLoadFlow.run bus_data line_data tol max_iter = Ok st
       /\ NRLoadFlow.solve bus_data line_data tol max_iter
          = Ok (NRLoadFlow.st_V st, NRLoadFlow.st_iteration_data st)
       /\ (length (NRLoadFlow.st_iteration_data st) <= Z.to_nat max_iter)%nat)
  /\ (forall self tol max_iter alpha Y,
        GaussSeidel.build_ybus (length (GaussSeidel.bus_data self))
          (GaussSeidel.line_data self) = Ok Y ->
        exists st,
          GaussSeidel.run self tol max_iter alpha = Ok (Y, st)
          /\ snd (GaussSeidel.solve self tol max_iter alpha)
             = Ok (GaussSeidel.st_V st, GaussSeidel.st_iter_data st)
          /\ exists new,
               GaussSeidel.st_iter_data st = GaussSeidel.iter_data self ++ new
               /\ (length new <= Z.to_nat max_iter)%nat
               /\ (GaussSeidel.st_converged st = false ->
                   length new = Z.to_nat max_iter)).
Proof.
  split.
  - intros bus_data line_data tol max_iter Yw Hpos Hbuild.
    unfold NRLoadFlow.solve, NRLoadFlow.run. rewrite Hbuild. simpl.
    eexists. split; [reflexivity|]. split.
    + destruct (NR_loop_report_defined Yw.1 (bus_type <$> bus_data)
                  ((fun b => (bus_pg b - bus_pl b)%float) <$> bus_data)
                  ((fun b => (bus_qg b - bus_ql b)%float) <$> bus_data)
                  tol (Z.to_nat max_iter)
                  {| NRLoadFlow.st_V := NRLoadFlow.initial_voltage <$> bus_data;
                     NRLoadFlow.st_iteration_data := [];
                     NRLoadFlow.st_converged := false;
                     NRLoadFlow.st_max_mis := None |} ltac:(lia)) as [Hc|[m Hm]];
        unfold py_range.
      * by rewrite Hc.
      * rewrite Hm. by case_match.
    + by apply NR_loop_trace_length.
  - intros self tol max_iter alpha Y Hbuild.
    unfold GaussSeidel.solve, GaussSeidel.run. rewrite Hbuild. simpl.
    eexists. split; [reflexivity|]. split; [reflexivity|].
    by apply GS_loop_records.
Qed.

(** C10 -- [solve] appends to [self.iter_data] and never clears it: the
    trace a first call returns starts with what the instance already held,
    and a second call on the same instance succeeds and returns a trace that
    starts with every record of the first. *)
Theorem C10_trace_accumulates (self self1 : GaussSeidel.t) (tol1 : float)
    (max_iter1 : Z) (alpha1 : float) (V1 : list complex) (trace1 : list IterRecord) :
  GaussSeidel.solve self tol1 max_iter1 alpha1 = (self1, Ok (V1, trace1)) ->
  (exists new, trace1 = GaussSeidel.iter_data self ++ new)
  /\ GaussSeidel.iter_data self1 = trace1
  /\ forall tol2 max_iter2 alpha2,
       exists self2 V2 more,
         GaussSeidel.solve self1 tol2 max_iter2 alpha2 = (self2, Ok (V2, trace1 ++ more))
         /\ GaussSeidel.iter_data self2 = trace1 ++ more.
Proof.
  assert (forall c tol its st,
            exists more,
              GaussSeidel.st_iter_data (for_loop (GaussSeidel.iteration c tol) its st)
              = GaussSeidel.st_iter_data st ++ more) as Hgrow.
  { intros c tol its st.
    apply (for_loop_invariant
             (fun s => exists more, GaussSeidel.st_iter_data s
                                    = GaussSeidel.st_iter_data st ++ more)).
    - intros it s0 [more Hs0]. unfold GaussSeidel.iteration.
      case_match; simpl; rewrite Hs0, <- app_assoc; eauto.
    - exists []. by rewrite app_nil_r. }
  unfold GaussSeidel.solve, GaussSeidel.run.
  destruct (GaussSeidel.build_ybus _ _) as [Y|e] eqn:Hbuild; simpl; [|discriminate].
  intros Hcall. injection Hcall as <- <- <-.
  split; [apply Hgrow|]. split; [reflexivity|].
  intros tol2 max_iter2 alpha2. simpl. rewrite Hbuild. simpl.
  match goal with
  | |- context [for_loop (GaussSeidel.iteration ?c tol2) (py_range max_iter2) ?s0] =>
      destruct (Hgrow c tol2 (py_range max_iter2) s0) as [more Hmore]
  end.
  simpl in Hmore. do 2 eexists. exists more. rewrite Hmore. split; reflexivity.
Qed.
End SolveReturns.

(** C2, on the 3-bus sample table with a budget of one iteration. *)
Lemma C2_solve_returns_pair_witness :
  (exists st,
     NRLoadFlow.run (R := Reference.runtime) bus_data_3bus line_data_3bus 1e-6 1 = Ok st
     /\ NRLoadFlow.solve (R := Reference.runtime) bus_data_3bus line_data_3bus 1e-6 1
        = Ok (NRLoadFlow.st_V st, NRLoadFlow.st_iteration_data st)
     /\ (length (NRLoadFlow.st_iteration_data st) <= Z.to_nat 1)%nat)
  /\ (exists st,
        GaussSeidel.run (R := Reference.runtime) gs_3bus 1e-6 1 1 = Ok (Ybus_3bus, st)
        /\ snd (GaussSeidel.solve (R := Reference.runtime) gs_3bus 1e-6 1 1)
           = Ok (GaussSeidel.st_V st, GaussSeidel.st_iter_data st)
        /\ exists new,
             GaussSeidel.st_iter_data st = GaussSeidel.iter_data gs_3bus ++ new
             /\ (length new <= Z.to_nat 1)%nat
             /\ (GaussSeidel.st_converged st = false -> length new = Z.to_nat 1)).
Proof.
  destruct (C2_solve_returns_pair (R := Reference.runtime)) as [Hnr Hgs]. split.
  - apply (Hnr bus_data_3bus line_data_3bus 1e-6%float 1 (Ybus_3bus, [])).
    + lia.
    + vm_compute. reflexivity.
  - apply (Hgs gs_3bus 1e-6%float 1 1%float Ybus_3bus).
    vm_compute. reflexivity.
Defined.

(** C2, refuted on the 3-bus sample table: with a budget of one sweep,
    Gauss-Seidel does not converge for [tol = 1e-6] and does for [tol = 1],
    and both calls return the very same value.  The value returned by the
    run that exhausted its budget therefore holds no [converged = false]
    flag. *)
Lemma C2_no_converged_flag_counterexample :
  GS_converged (R := Reference.runtime) gs_3bus 1e-6 1 1 = Some false
  /\ GS_converged (R := Reference.runtime) gs_3bus 1 1 1 = Some true
  /\ snd (GaussSeidel.solve (R := Reference.runtime) gs_3bus 1e-6 1 1)
     = snd (GaussSeidel.solve (R := Reference.runtime) gs_3bus 1 1 1)
  /\ exists V record,
       snd (GaussSeidel.solve (R := Reference.runtime) gs_3bus 1e-6 1 1) = Ok (V, [record]).
Proof.
  split; [vm_compute; reflexivity|].
  split; [vm_compute; reflexivity|].
  split; [vm_compute; reflexivity|].
  do 2 eexists. vm_compute. reflexivity.
Qed.

(** C10, on the 3-bus sample table: a first call with a budget of two
    sweeps. *)
Lemma C10_trace_accumulates_witness :
  match GaussSeidel.solve (R := Reference.runtime) gs_3bus 1e-6 2 1 with
  | (self1, Ok (V1, trace1)) =>
    (exists new, trace1 = GaussSeidel.iter_data gs_3bus ++ new)
    /\ GaussSeidel.iter_data self1 = trace1
    /\ forall tol2 max_iter2 alpha2,
         exists self2 V2 more,
           GaussSeidel.solve (R := Reference.runtime) self1 tol2 max_iter2 alpha2
           = (self2, Ok (V2, trace1 ++ more))
           /\ GaussSeidel.iter_data self2 = trace1 ++ more
  | (_, Raise _) => False
  end.
Proof.
  destruct (GaussSeidel.solve gs_3bus 1e-6 2 1) as [self1 [[V1 trace1]|e]] eqn:E.
  - exact (C10_trace_accumulates (R := Reference.runtime) _ _ _ _ _ _ _ E).
  - vm_compute in E. discriminate E.
Defined.

(* ------------------------------------------------------------------ *)
(** ** The Gauss-Seidel PV-bus update *)

Section PVUpdate.
Context {R : Runtime}.

(** In a sweep, a bus of type 2 is updated by the PV branch. *)
Lemma GS_bus_step_pv c V_prev s (i : nat) :
  GaussSeidel.s_types c !!! i = 2 ->
  GaussSeidel.sw_V (GaussSeidel.bus_step c V_prev s i)
  = GaussSeidel.update_pv c i (GaussSeidel.sumYV c i (GaussSeidel.sw_V s))
      (GaussSeidel.sw_V s).
Proof. intros Ht. unfold GaussSeidel.bus_step. by rewrite Ht. Qed.

(** When the solved voltage is not above 1e-12 in magnitude it is blended
    as it is, without renormalisation. *)
Lemma GS_update_pv_small c (i : nat) sum V :
  (eps_z <? np_cabs (GaussSeidel.pv_solved c i sum V))%float = false ->
  GaussSeidel.update_pv c i sum V
  = <[i := GaussSeidel.blend c (GaussSeidel.pv_solved c i sum V)
             (GaussSeidel.reseed_pv c i V !!! i)]> (GaussSeidel.reseed_pv c i V).
Proof.
  intros Hsmall. unfold GaussSeidel.update_pv, GaussSeidel.renormalize.
  by rewrite Hsmall.
Qed.

(** C8 -- in a sweep, the update of a PV bus whose solved voltage exceeds
    1e-12 in magnitude is the specified sequence: reactive injection
    estimated from the current voltages and clipped to [Qmin, Qmax], voltage
    solved, magnitude reset to the set-point, blend with the acceleration
    factor. *)
Theorem C8_pv_update_sequence (c : GaussSeidel.Setup) (V_prev : list complex)
    (s : GaussSeidel.SweepState) (i : nat) :
  GaussSeidel.s_types c !!! i = 2 ->
  (eps_z <? np_cabs (GaussSeidel.pv_solved c i
                       (GaussSeidel.sumYV c i (GaussSeidel.sw_V s))
                       (GaussSeidel.sw_V s)))%float = true ->
  GaussSeidel.sw_V (GaussSeidel.bus_step c V_prev s i)
  = update_pv_as_specified c i (GaussSeidel.sumYV c i (GaussSeidel.sw_V s))
      (GaussSeidel.sw_V s).
Proof.
  intros Ht Hbig. rewrite GS_bus_step_pv by done.
  unfold GaussSeidel.update_pv, update_pv_as_specified, GaussSeidel.renormalize.
  rewrite Hbig. reflexivity.
Qed.
End PVUpdate.

(** C8, on the 3-bus sample table: bus 2 in the first sweep. *)
Lemma C8_pv_update_sequence_witness :
  let c := GaussSeidel.setup gs_3bus Ybus_3bus 1 in
  let V := GaussSeidel.initial_voltages (R := Reference.runtime) bus_data_3bus in
  let s := {| GaussSeidel.sw_V := V; GaussSeidel.sw_max_mis := 0;
              GaussSeidel.sw_max_power_mis := 0 |} in
  GaussSeidel.sw_V (GaussSeidel.bus_step (R := Reference.runtime) c V s 1)
  = update_pv_as_specified (R := Reference.runtime) c 1
      (GaussSeidel.sumYV (R := Reference.runtime) c 1 V) V.
Proof.
  apply (C8_pv_update_sequence (R := Reference.runtime)).
  - reflexivity.
  - vm_compute. reflexivity.
Defined.

(** C8, refuted on the table whose slack set-point is 1e-13 p.u.: the
    voltage solved for PV bus 2 in the first sweep has magnitude 1e-13, so the
    renormalisation is skipped and [solve] returns that bus below 1e-12 in
    magnitude although its set-point is 1.03; renormalising as specified
    gives a magnitude above 1. *)
Lemma C8_pv_not_renormalized_counterexample :
  let c := GaussSeidel.setup gs_dead Ybus_dead 1 in
  let V := GaussSeidel.initial_voltages (R := Reference.runtime) bus_data_dead in
  let sum := GaussSeidel.sumYV (R := Reference.runtime) c 1 V in
  GaussSeidel.s_types c !!! 1%nat = 2
  /\ GaussSeidel.s_vm c !!! 1%nat = 1.03%float
  /\ GaussSeidel.update_pv (R := Reference.runtime) c 1 sum V
     <> update_pv_as_specified (R := Reference.runtime) c 1 sum V
  /\ (1 <? @np_cabs Reference.runtime
             (update_pv_as_specified (R := Reference.runtime) c 1 sum V !!! 1%nat))%float
     = true
  /\ match snd (GaussSeidel.solve (R := Reference.runtime) gs_dead 1e-6 1 1) with
     | Ok (V_final, _) =>
       (@np_cabs Reference.runtime (V_final !!! 1%nat) <? 1e-12)%float = true
     | Raise _ => False
     end.
Proof.
  cbv zeta. split; [reflexivity|]. split; [reflexivity|]. split; [|split].
  - intros Heq.
    apply (f_equal (fun W : list complex =>
                      (1 <? @np_cabs Reference.runtime (W !!! 1%nat))%float)) in Heq.
    vm_compute in Heq. discriminate Heq.
  - vm_compute. reflexivity.
  - vm_compute. reflexivity.
Qed.

(* ------------------------------------------------------------------ *)
(** ** Gauss-Seidel on a table with the slack bus only *)

(** X26 -- Gauss-Seidel has no early exit for an empty unknown set: on a table with
    the slack bus only, every sweep it runs appends a record with a voltage
    mismatch of 0, so with a positive tolerance it converges after one sweep
    with a trace of one record, the slack set-point unchanged. *)
Lemma GS_slack_only_network {R : Runtime} (b : Bus) (ncols : nat) (Sbase tol : float)
    (max_iter : Z) (alpha : float) :
  bus_type b = 1 ->
  0 < max_iter ->
  (0 <? tol)%float = true ->
  exists record,
    snd (GaussSeidel.solve (GaussSeidel.init [b] ncols [] Sbase) tol max_iter alpha)
    = Ok ([GaussSeidel.slack_voltage b], [record])
    /\ GS_converged (GaussSeidel.init [b] ncols [] Sbase) tol max_iter alpha = Some true.
Proof.
  intros Hb Hpos Htol. unfold GS_converged, GaussSeidel.solve, GaussSeidel.run. simpl.
  unfold py_range. destruct (Z.to_nat max_iter) as [|n] eqn:En; [lia|]. simpl.
  unfold GaussSeidel.iteration, GaussSeidel.sweep, GaussSeidel.initial_voltage. simpl.
  unfold GaussSeidel.bus_step. simpl. rewrite Hb. simpl. rewrite Htol. simpl.
  eexists. split; reflexivity.
Qed.

(* ================================================================== *)
(** * Further properties of the admittance builders *)

Section BuilderFacts.
Context {R : Runtime}.

Lemma foldM_app {A S} (f : S -> A -> result S) (l1 l2 : list A) (s : S) :
  foldM f (l1 ++ l2) s = (s1 <- foldM f l1 s ;; foldM f l2 s1).
Proof.
  revert s. induction l1 as [|a l1 IH]; simpl; intros s; [done|].
  destruct (f s a) as [s1|e]; simpl; [apply IH | done].
Qed.

Lemma mat_update_Ok nb Y i j f :
  is_Some (py_index nb i) -> is_Some (py_index nb j) ->
  exists Y', mat_update nb Y i j f = Ok Y'.
Proof. intros [a Ha] [b Hb]. unfold mat_update. rewrite Ha, Hb. eauto. Qed.

(** The four accumulations succeed exactly when both indices are in range. *)
Lemma stamp_line_Ok_iff nb Y i j y bs :
  (exists Y', stamp_line nb Y i j y bs = Ok Y')
  <-> is_Some (py_index nb i) /\ is_Some (py_index nb j).
Proof.
  unfold stamp_line, mat_update. split.
  - intros [Y' H]. destruct (py_index nb i), (py_index nb j); simpl in H;
      try discriminate; eauto.
  - intros [[a Ha] [b Hb]]. rewrite Ha, Hb. simpl. eauto.
Qed.

Lemma stamp_line_square nb Y Y' i j y bs :
  square nb Y -> stamp_line nb Y i j y bs = Ok Y' -> square nb Y'.
Proof.
  assert (forall Y0 a b f, square nb Y0 -> square nb (mupd Y0 a b f)) as Hupd.
  { intros Y0 a b f [Hlen Hrows]. unfold mupd. split.
    - by rewrite length_alter.
    - intros row Hin. apply list_elem_of_lookup in Hin as [k Hk].
      rewrite list_lookup_alter in Hk. case_decide as Hka.
      + apply fmap_Some in Hk as (row0 & Hrow0 & ->).
        rewrite length_alter. apply Hrows. apply list_elem_of_lookup. eauto.
      + apply Hrows. apply list_elem_of_lookup. eauto. }
  unfold stamp_line, mat_update. intros Hsq Hrun.
  destruct (py_index nb i) as [a|]; [|discriminate].
  destruct (py_index nb j) as [b|]; [|discriminate].
  simpl in Hrun. injection Hrun as <-. auto.
Qed.

Lemma zeros_square nb : square nb (zeros nb).
Proof.
  unfold zeros. split; [by rewrite length_replicate|].
  intros row Hin. apply elem_of_replicate in Hin as [-> _].
  by rewrite length_replicate.
Qed.

(** X1 -- the matrix either builder returns is an [nb] x [nb] array. *)
Theorem ybus_square (nb : nat) (lines : list Line) (Y : matrix) :
  built_by nb lines Y -> square nb Y.
Proof.
  intros [[ws Hnr] | Hgs].
  - change (square nb (Y, ws).1).
    eapply (foldM_invariant (fun acc => square nb acc.1)); [| |exact Hnr].
    + intros [Y0 w0] l [Y1 w1] H0 H1. simpl in *.
      unfold NRLoadFlow.build_ybus_line in H1.
      destruct (NRLoadFlow.near_zero _ _); [by injection H1 as <- _|].
      apply bind_Ok in H1 as (y & _ & H1). apply bind_Ok in H1 as (Y2 & Hs & H1).
      injection H1 as <- _. eauto using stamp_line_square.
    + apply zeros_square.
  - eapply (foldM_invariant (square nb)); [| |exact Hgs].
    + intros Y0 l Y1 H0 H1. unfold GaussSeidel.build_ybus_line in H1.
      apply bind_Ok in H1 as (y & _ & H1). eauto using stamp_line_square.
    + apply zeros_square.
Qed.

(** One line of the Newton-Raphson builder goes through exactly when it is
    skipped or both its ids are in range. *)
Lemma NR_build_ybus_line_Ok_iff nb Y ws l :
  (exists acc, NRLoadFlow.build_ybus_line nb (Y, ws) l = Ok acc)
  <-> skipped l \/ ids_in_range nb l.
Proof.
  unfold NRLoadFlow.build_ybus_line, skipped, ids_in_range.
  destruct (NRLoadFlow.near_zero _ _) eqn:Hnz.
  - split; eauto.
  - unfold py_recip. rewrite (near_zero_false_divisor _ _ Hnz). simpl.
    split.
    + intros [acc H]. right.
      destruct (stamp_line _ _ _ _ _ _) as [Y'|e] eqn:Hs; simpl in H; [|discriminate].
      eapply stamp_line_Ok_iff. eauto.
    + intros [H|H]; [discriminate|].
      eapply stamp_line_Ok_iff in H as [Y' H]. rewrite H. simpl. eauto.
Qed.

(** X2 -- the Newton-Raphson builder returns a matrix exactly when every line
    it does not skip has both bus ids in range; otherwise it raises
    IndexError, and never anything else. *)
Theorem NR_build_ybus_outcome (nb : nat) (lines : list Line) :
  ((exists Yw, NRLoadFlow.build_ybus nb lines = Ok Yw)
   <-> Forall (fun l => skipped l \/ ids_in_range nb l) lines)
  /\ (NRLoadFlow.build_ybus nb lines = Raise IndexError
      <-> ~ Forall (fun l => skipped l \/ ids_in_range nb l) lines).
Proof.
  assert (forall acc,
            (exists Yw, foldM (NRLoadFlow.build_ybus_line nb) lines acc = Ok Yw)
            <-> Forall (fun l => skipped l \/ ids_in_range nb l) lines) as Hok.
  { induction lines as [|l lines IH]; intros [Y ws]; cbn [foldM].
    - split; [constructor | eauto].
    - rewrite Forall_cons. split.
      + intros [Yw H]. apply bind_Ok in H as (acc & Hl & Hrest). split.
        * apply (NR_build_ybus_line_Ok_iff nb Y ws l). eauto.
        * apply (IH acc). eauto.
      + intros [Hl Hrest]. apply (NR_build_ybus_line_Ok_iff nb Y ws l) in Hl as [acc Hl].
        rewrite Hl. simpl. by apply IH. }
  split; [apply Hok|]. unfold NRLoadFlow.build_ybus. rewrite <- (Hok (zeros nb, [])).
  destruct (foldM _ _ _) as [Yw|e] eqn:E.
  - split; [discriminate | intros H; exfalso; eauto].
  - rewrite (NR_build_ybus_raises nb lines e E). split; [|done].
    intros _ [Yw H]. discriminate H.
Qed.

(** X3 -- the Gauss-Seidel builder returns a matrix exactly when no line has
    r = x = 0 (the divisor for which [1 / z] raises) and every line has both
    bus ids in range. *)
Theorem GS_build_ybus_outcome (nb : nat) (lines : list Line) :
  (exists Y, GaussSeidel.build_ybus nb lines = Ok Y)
  <-> Forall (fun l => py_zero_divisor (Cplx (line_r l) (line_x l)) = false
                       /\ ids_in_range nb l) lines.
Proof.
  unfold GaussSeidel.build_ybus. generalize (zeros nb).
  induction lines as [|l lines IH]; intros Y; cbn [foldM].
  - split; [constructor | eauto].
  - rewrite Forall_cons. unfold GaussSeidel.build_ybus_line at 1, py_recip, ids_in_range.
    destruct (py_zero_divisor _) eqn:Hz; simpl.
    + split; [intros [Y' H]; discriminate | intros [[H _] _]; discriminate].
    + split.
      * intros [Y' H]. apply bind_Ok in H as (Y1 & Hs & Hrest).
        split; [split; [done|]|].
        -- eapply stamp_line_Ok_iff. eauto.
        -- apply (IH Y1). eauto.
      * intros [[_ Hids] Hrest].
        eapply stamp_line_Ok_iff in Hids as [Y1 Hs]. rewrite Hs. simpl. by apply IH.
Qed.
End BuilderFacts.

(** The shape, on the 3-bus sample table. *)
Lemma ybus_square_witness :
  match NRLoadFlow.build_ybus (R := Reference.runtime) 3 line_data_3bus with
  | Ok (Y, _) => square 3 Y
  | Raise _ => False
  end.
Proof.
  destruct (NRLoadFlow.build_ybus 3 line_data_3bus) as [[Y ws]|e] eqn:E.
  - apply (ybus_square (R := Reference.runtime) 3 line_data_3bus Y).
    left. exists ws. exact E.
  - vm_compute in E. discriminate E.
Defined.

Section BuilderFrame.
Context {R : Runtime}.

(** The warnings a run of the Newton-Raphson loop starts with are only
    carried along. *)
Lemma NR_foldM_warnings nb lines Y ws :
  foldM (NRLoadFlow.build_ybus_line nb) lines (Y, ws)
  = result_map (fun acc => (acc.1, ws ++ acc.2))
      (foldM (NRLoadFlow.build_ybus_line nb) lines (Y, [])).
Proof.
  revert Y ws. induction lines as [|l lines IH]; intros Y ws; cbn [foldM].
  - simpl. by rewrite app_nil_r.
  - unfold NRLoadFlow.build_ybus_line at 1 3.
    destruct (NRLoadFlow.near_zero _ _).
    + simpl. rewrite IH.
      rewrite (IH Y [NRLoadFlow.ZeroImpedanceLine _ _]).
      destruct (foldM _ lines (Y, [])) as [[Y' ws']|e]; simpl; [|done].
      by rewrite <- app_assoc.
    + destruct (py_recip _) as [y|e]; simpl; [|done].
      destruct (stamp_line _ _ _ _ _ _) as [Y'|e]; simpl; [|done].
      apply IH.
Qed.

(** X4 -- a line the Newton-Raphson builder skips (bus ids within 2^53 in
    magnitude) changes nothing but the warnings: wherever it stands in the
    table, the builder returns the matrix (or raises the exception) it
    returns without that line, and its warnings are those of the lines
    before it, then one warning naming its two buses, then those of the
    lines after it. *)
Theorem NR_skipped_line_frame (nb : nat) (l1 l2 : list Line) (z : Line) :
  skipped z ->
  exact_id (line_from z) -> exact_id (line_to z) ->
  match NRLoadFlow.build_ybus nb (l1 ++ l2) with
  | Ok (Y, ws) =>
    exists Y1 ws1 ws2,
      NRLoadFlow.build_ybus nb l1 = Ok (Y1, ws1)
      /\ ws = ws1 ++ ws2
      /\ NRLoadFlow.build_ybus nb (l1 ++ z :: l2)
         = Ok (Y, ws1 ++ NRLoadFlow.ZeroImpedanceLine (line_from z) (line_to z) :: ws2)
  | Raise e => NRLoadFlow.build_ybus nb (l1 ++ z :: l2) = Raise e
  end.
Proof.
  intros Hz _ _. unfold NRLoadFlow.build_ybus. rewrite !foldM_app.
  destruct (foldM _ l1 _) as [[Y1 ws1]|e]; cbn [bind foldM]; [|done].
  rewrite (NR_zero_impedance_line_skipped nb Y1 ws1 z Hz). cbn [bind].
  rewrite (NR_foldM_warnings nb l2 Y1 ws1),
    (NR_foldM_warnings nb l2 Y1 (ws1 ++ [_])).
  destruct (foldM _ l2 (Y1, [])) as [[Y2 ws2]|e]; simpl; [|done].
  exists Y1, ws1, ws2. split; [done|]. by rewrite <- app_assoc.
Qed.

(** X5 -- on a table with no line below the 1e-12 guard the two builders
    agree: the Newton-Raphson builder returns the matrix of the Gauss-Seidel
    builder with no warning, or raises the same exception. *)
Theorem builders_agree (nb : nat) (lines : list Line) :
  Forall (fun l => ~ skipped l) lines ->
  NRLoadFlow.build_ybus nb lines
  = result_map (fun Y => (Y, [])) (GaussSeidel.build_ybus nb lines).
Proof.
  unfold NRLoadFlow.build_ybus, GaussSeidel.build_ybus. generalize (zeros nb).
  induction lines as [|l lines IH]; intros Y Hall; cbn [foldM]; [done|].
  apply Forall_cons in Hall as [Hl Hall].
  unfold NRLoadFlow.build_ybus_line at 1, GaussSeidel.build_ybus_line at 1.
  unfold skipped in Hl. destruct (NRLoadFlow.near_zero _ _); [done|].
  destruct (py_recip _) as [y|e]; simpl; [|done].
  destruct (stamp_line _ _ _ _ _ _) as [Y'|e]; simpl; [|done].
  by apply IH.
Qed.

Lemma py_index_wrapped nb id :
  py_index nb (wrapped_id nb id - 1) = py_index nb (id - 1).
Proof.
  unfold wrapped_id, py_index.
  repeat (case_match; simpl); try done; try lia; f_equal; lia.
Qed.

Lemma stamp_line_wrapped nb Y (l : Line) y bs :
  stamp_line nb Y (line_from (wrapped_line nb l) - 1) (line_to (wrapped_line nb l) - 1) y bs
  = stamp_line nb Y (line_from l - 1) (line_to l - 1) y bs.
Proof.
  unfold stamp_line, mat_update, wrapped_line. simpl.
  by rewrite !py_index_wrapped.
Qed.

(** X6 -- a bus id from [-nb + 1] to [0] is not rejected: Python wraps the
    negative index, so the line is stamped as if the id were [id + nb].  The
    builders return the same matrix (or raise the same exception) for a table
    and for the table with those ids replaced. *)
Theorem wrapped_ids_same_matrix (nb : nat) (lines : list Line) :
  GaussSeidel.build_ybus nb (wrapped_line nb <$> lines) = GaussSeidel.build_ybus nb lines
  /\ result_map fst (NRLoadFlow.build_ybus nb (wrapped_line nb <$> lines))
     = result_map fst (NRLoadFlow.build_ybus nb lines).
Proof.
  split.
  - unfold GaussSeidel.build_ybus. generalize (zeros nb).
    induction lines as [|l lines IH]; intros Y; cbn [foldM fmap list_fmap]; [done|].
    unfold GaussSeidel.build_ybus_line at 1 3.
    change (line_r (wrapped_line nb l)) with (line_r l).
    change (line_x (wrapped_line nb l)) with (line_x l).
    change (line_b (wrapped_line nb l)) with (line_b l).
    destruct (py_recip _) as [y|e]; simpl; [|done].
    rewrite (stamp_line_wrapped nb Y l).
    destruct (stamp_line _ _ _ _ _ _) as [Y'|e]; simpl; [apply IH | done].
  - unfold NRLoadFlow.build_ybus. generalize (zeros nb).
    assert (forall Y ws ws',
              result_map fst (foldM (NRLoadFlow.build_ybus_line nb)
                                (wrapped_line nb <$> lines) (Y, ws))
              = result_map fst (foldM (NRLoadFlow.build_ybus_line nb) lines (Y, ws')))
      as H; [|intros Y; apply H].
    induction lines as [|l lines IH]; intros Y ws ws'; cbn [foldM fmap list_fmap]; [done|].
    unfold NRLoadFlow.build_ybus_line at 1 3.
    change (line_r (wrapped_line nb l)) with (line_r l).
    change (line_x (wrapped_line nb l)) with (line_x l).
    change (line_b (wrapped_line nb l)) with (line_b l).
    destruct (NRLoadFlow.near_zero _ _); [apply IH|].
    destruct (py_recip _) as [y|e]; simpl; [|done].
    rewrite (stamp_line_wrapped nb Y l).
    destruct (stamp_line _ _ _ _ _ _) as [Y'|e]; simpl; [apply IH | done].
Qed.
End BuilderFrame.

(** The frame property, for a zero-impedance line put in the middle of the
    3-bus sample table. *)
Lemma NR_skipped_line_frame_witness :
  match NRLoadFlow.build_ybus (R := Reference.runtime) 3
          ([mk_line 2 3 0 0 0; mk_line 1 2 0.02 0.06 0.06]
           ++ [mk_line 1 3 0.08 0.24 0.05; mk_line 2 3 0.06 0.18 0.04])
  with
  | Ok (Y, ws) =>
    exists Y1 ws1 ws2,
      NRLoadFlow.build_ybus (R := Reference.runtime) 3
        [mk_line 2 3 0 0 0; mk_line 1 2 0.02 0.06 0.06] = Ok (Y1, ws1)
      /\ ws = ws1 ++ ws2
      /\ NRLoadFlow.build_ybus (R := Reference.runtime) 3
           ([mk_line 2 3 0 0 0; mk_line 1 2 0.02 0.06 0.06] ++ zero_impedance_line
              :: [mk_line 1 3 0.08 0.24 0.05; mk_line 2 3 0.06 0.18 0.04])
         = Ok (Y, ws1 ++ NRLoadFlow.ZeroImpedanceLine 1 2 :: ws2)
  | Raise e =>
    NRLoadFlow.build_ybus (R := Reference.runtime) 3
      ([mk_line 2 3 0 0 0; mk_line 1 2 0.02 0.06 0.06] ++ zero_impedance_line
         :: [mk_line 1 3 0.08 0.24 0.05; mk_line 2 3 0.06 0.18 0.04]) = Raise e
  end.
Proof.
  apply (NR_skipped_line_frame (R := Reference.runtime) 3
           [mk_line 2 3 0 0 0; mk_line 1 2 0.02 0.06 0.06]
           [mk_line 1 3 0.08 0.24 0.05; mk_line 2 3 0.06 0.18 0.04] zero_impedance_line).
  - reflexivity.
  - unfold exact_id. simpl. lia.
  - unfold exact_id. simpl. lia.
Defined.

(** The agreement of the builders, on the 3-bus sample table. *)
Lemma builders_agree_witness :
  NRLoadFlow.build_ybus (R := Reference.runtime) 3 line_data_3bus
  = result_map (fun Y => (Y, []))
      (GaussSeidel.build_ybus (R := Reference.runtime) 3 line_data_3bus).
Proof.
  apply (builders_agree (R := Reference.runtime) 3 line_data_3bus).
  repeat constructor; unfold skipped; vm_compute; discriminate.
Defined.

(* ================================================================== *)
(** * Further properties of the solve loops *)

Section LoopExits.
Context {S : Type}.

(** A loop whose body keeps [P] while it continues and leaves [P] or [Q] when
    it breaks ends in a state where [P] or [Q] holds. *)
Lemma for_loop_exit (P Q : S -> Prop) (body : nat -> S -> S * flow)
    (its : list nat) (s : S) :
  (forall it s0, P s0 ->
     match body it s0 with
     | (s1, Continue) => P s1
     | (s1, Break) => P s1 \/ Q s1
     end) ->
  P s -> P (for_loop body its s) \/ Q (for_loop body its s).
Proof.
  intros Hstep. revert s. induction its as [|it its IH]; simpl; intros s Hs; [auto|].
  specialize (Hstep it s Hs). destruct (body it s) as [s1 [|]]; auto.
Qed.
End LoopExits.

Section SolveFacts.
Context {R : Runtime}.

(** X7 -- when Newton-Raphson ends converged, the voltages it returns are the
    ones that passed the test: their maximum absolute mismatch is below [tol]
    and their RMS mismatch below [tol / 10] (or the table has no unknown). *)
Theorem NR_converged_passes_test (bus_data : list Bus) (line_data : list Line)
    (tol : float) (max_iter : Z) (Yw : matrix * list NRLoadFlow.warning)
    (st : NRLoadFlow.LoopState) :
  NRLoadFlow.build_ybus (length bus_data) line_data = Ok Yw ->
  NRLoadFlow.run bus_data line_data tol max_iter = Ok st ->
  NRLoadFlow.st_converged st = true ->
  NR_passes_test Yw.1 (bus_type <$> bus_data)
    ((fun b => (bus_pg b - bus_pl b)%float) <$> bus_data)
    ((fun b => (bus_qg b - bus_ql b)%float) <$> bus_data)
    tol (NRLoadFlow.st_V st).
Proof.
  intros Hbuild Hrun Hconv. unfold NRLoadFlow.run in Hrun.
  rewrite Hbuild in Hrun. simpl in Hrun. injection Hrun as <-.
  match goal with
  | |- NR_passes_test ?Y ?ty ?P ?Q _ (NRLoadFlow.st_V (for_loop ?body ?its ?s0)) =>
      destruct (for_loop_exit
                  (fun s => NRLoadFlow.st_converged s = false)
                  (fun s => NR_passes_test Y ty P Q tol (NRLoadFlow.st_V s))
                  body its s0) as [Hfalse|HQ]
  end.
  - intros it s0 Hs0. unfold NRLoadFlow.iteration, NR_passes_test. cbv zeta.
    destruct (length _ =? 0)%nat eqn:H0; simpl.
    { right. left. apply Nat.eqb_eq in H0. by apply length_zero_iff_nil. }
    destruct (NRLoadFlow.converged_test _ _ _) eqn:Htest; simpl; [by right; right|].
    destruct (linalg_cond _); [|by left].
    destruct (linalg_solve _ _); [done|by left].
  - reflexivity.
  - congruence.
  - exact HQ.
Qed.

(** X8 -- when Gauss-Seidel ends converged, the largest voltage change of its
    last sweep was below [tol], and the voltages and the last trace record
    it returns are those of that sweep. *)
Theorem GS_converged_small_sweep (self : GaussSeidel.t) (tol : float) (max_iter : Z)
    (alpha : float) (Y : matrix) (st : GaussSeidel.LoopState) :
  GaussSeidel.run self tol max_iter alpha = Ok (Y, st) ->
  GaussSeidel.st_converged st = true ->
  GS_ends_on_small_sweep (GaussSeidel.setup self Y alpha) tol st.
Proof.
  unfold GaussSeidel.run. intros Hrun Hconv.
  apply bind_Ok in Hrun as (Y0 & _ & Hrun). injection Hrun as <- <-.
  match goal with
  | |- GS_ends_on_small_sweep ?c _ (for_loop ?body ?its ?s0) =>
      destruct (for_loop_exit
                  (fun s => GaussSeidel.st_converged s = false)
                  (fun s => GS_ends_on_small_sweep c tol s)
                  body its s0) as [Hfalse|HQ]
  end.
  - intros it s0 Hs0. unfold GaussSeidel.iteration.
    destruct (_ <? tol)%float eqn:Hsmall; simpl; [|done].
    right. exists (GaussSeidel.st_V s0), it, (GaussSeidel.st_iter_data s0). simpl. auto.
  - reflexivity.
  - congruence.
  - exact HQ.
Qed.

Lemma NR_iteration_appends Y types P_spec Q_spec tol it st :
  match NRLoadFlow.iteration Y types P_spec Q_spec tol it st with
  | (s1, Continue) =>
    exists r, NRLoadFlow.st_iteration_data s1 = NRLoadFlow.st_iteration_data st ++ [r]
              /\ dict_get "Iteration" r = Some (PInt (Z.of_nat it + 1))
  | (s1, Break) =>
    NRLoadFlow.st_iteration_data s1 = NRLoadFlow.st_iteration_data st
    \/ exists r, NRLoadFlow.st_iteration_data s1 = NRLoadFlow.st_iteration_data st ++ [r]
                 /\ dict_get "Iteration" r = Some (PInt (Z.of_nat it + 1))
  end.
Proof.
  unfold NRLoadFlow.iteration. cbv zeta.
  destruct (length _ =? 0)%nat; simpl; [by left|].
  destruct (NRLoadFlow.converged_test _ _ _); simpl; [right; eauto|].
  destruct (linalg_cond _); [|right; eauto].
  destruct (linalg_solve _ _); simpl; eauto.
Qed.

Lemma numbered_from_1_snoc (trace : list IterRecord) (r : IterRecord) :
  numbered_from_1 trace ->
  dict_get "Iteration" r = Some (PInt (Z.of_nat (length trace) + 1)) ->
  numbered_from_1 (trace ++ [r]).
Proof.
  intros Htrace Hr j r' Hj.
  destruct (decide (j < length trace)%nat) as [Hlt|Hge].
  - rewrite lookup_app_l in Hj by done. by apply Htrace.
  - rewrite lookup_app_r in Hj by lia.
    destruct (j - length trace)%nat as [|k] eqn:Hk; simpl in Hj; [|by destruct k].
    injection Hj as <-. by replace j with (length trace) by lia.
Qed.

(** X9 -- the records of the trace Newton-Raphson returns are numbered 1, 2,
    3, ... in their 'Iteration' field. *)
Theorem NR_trace_numbered (bus_data : list Bus) (line_data : list Line)
    (tol : float) (max_iter : Z) (V : list complex) (trace : list IterRecord) :
  NRLoadFlow.solve bus_data line_data tol max_iter = Ok (V, trace) ->
  numbered_from_1 trace.
Proof.
  unfold NRLoadFlow.solve, NRLoadFlow.run. intros Hsolve.
  apply bind_Ok in Hsolve as (st & Hrun & Hsolve).
  apply bind_Ok in Hsolve as (_ & _ & Hsolve). injection Hsolve as _ <-.
  apply bind_Ok in Hrun as (Yw & _ & Hrun). simpl in Hrun. injection Hrun as <-.
  unfold py_range.
  apply (for_loop_counted
           (fun k s => length (NRLoadFlow.st_iteration_data s) = k
                       /\ numbered_from_1 (NRLoadFlow.st_iteration_data s))
           (fun s => numbered_from_1 (NRLoadFlow.st_iteration_data s))).
  - intros k s0 [Hlen Hnum] _.
    pose proof (NR_iteration_appends Yw.1 (bus_type <$> bus_data)
                  ((fun b => (bus_pg b - bus_pl b)%float) <$> bus_data)
                  ((fun b => (bus_qg b - bus_ql b)%float) <$> bus_data)
                  tol (0 + k) s0) as Happ.
    destruct (NRLoadFlow.iteration _ _ _ _ _ _ s0) as [s1 [|]].
    + destruct Happ as (r & -> & Hr). split.
      * rewrite length_app. simpl. lia.
      * apply numbered_from_1_snoc; [done|]. by rewrite Hlen.
    + destruct Happ as [->|(r & -> & Hr)]; [done|].
      apply numbered_from_1_snoc; [done|]. by rewrite Hlen.
  - by intros s0 [_ H].
  - split; [done|]. intros j r Hj. by destruct j.
Qed.

(** X10 -- the records one Gauss-Seidel call appends are numbered 1, 2, 3,
    ... whatever the instance already held: the numbering starts again with
    every call. *)
Theorem GS_new_records_numbered (self : GaussSeidel.t) (tol : float) (max_iter : Z)
    (alpha : float) (V : list complex) (trace : list IterRecord) :
  snd (GaussSeidel.solve self tol max_iter alpha) = Ok (V, trace) ->
  exists new, trace = GaussSeidel.iter_data self ++ new /\ numbered_from_1 new.
Proof.
  unfold GaussSeidel.solve, GaussSeidel.run.
  destruct (GaussSeidel.build_ybus _ _) as [Y|e]; simpl; [|discriminate].
  intros Hsolve. injection Hsolve as _ <-. unfold py_range.
  apply (for_loop_counted
           (fun k s => exists new,
                GaussSeidel.st_iter_data s = GaussSeidel.iter_data self ++ new
                /\ length new = k /\ numbered_from_1 new)
           (fun s => exists new,
                GaussSeidel.st_iter_data s = GaussSeidel.iter_data self ++ new
                /\ numbered_from_1 new)).
  - intros k s0 (new & Hdata & Hlen & Hnum) _. unfold GaussSeidel.iteration.
    assert (forall x y W,
              numbered_from_1 (new ++ [GaussSeidel.make_record (0 + k) x y W])) as Hsnoc.
    { intros x y W. apply numbered_from_1_snoc; [done|]. by rewrite Hlen. }
    destruct (_ <? tol)%float; simpl; eexists; rewrite Hdata, <- app_assoc;
      (split; [reflexivity|]); [|split]; auto.
    rewrite length_app. simpl. lia.
  - intros s0 (new & Hdata & _ & Hnum). eauto.
  - exists []. simpl. rewrite app_nil_r. split; [done|]. split; [done|].
    intros j r Hj. by destruct j.
Qed.
End SolveFacts.


Lemma NR_converged_passes_test_witness :
  match NRLoadFlow.run (R := Reference.runtime) bus_data_3bus line_data_3bus 1e-6 20 with
  | Ok st =>
    NR_passes_test (R := Reference.runtime) Ybus_3bus (bus_type <$> bus_data_3bus)
      ((fun b => (bus_pg b - bus_pl b)%float) <$> bus_data_3bus)
      ((fun b => (bus_qg b - bus_ql b)%float) <$> bus_data_3bus)
      1e-6 (NRLoadFlow.st_V st)
  | Raise _ => False
  end.
Proof.
  destruct (NRLoadFlow.run bus_data_3bus line_data_3bus 1e-6 20) as [st|e] eqn:E.
  - apply (NR_converged_passes_test (R := Reference.runtime) bus_data_3bus line_data_3bus
             1e-6%float 20 (Ybus_3bus, []) st); [vm_compute; reflexivity|exact E|].
    revert E. vm_compute. intros E. injection E as <-. reflexivity.
  - vm_compute in E. discriminate E.
Defined.

Lemma GS_converged_small_sweep_witness :
  match GaussSeidel.run (R := Reference.runtime) gs_3bus 1e-6 100 1 with
  | Ok (Y, st) =>
    GS_ends_on_small_sweep (R := Reference.runtime) (GaussSeidel.setup gs_3bus Y 1) 1e-6 st
  | Raise _ => False
  end.
Proof.
  destruct (GaussSeidel.run gs_3bus 1e-6 100 1) as [[Y st]|e] eqn:E.
  - apply (GS_converged_small_sweep (R := Reference.runtime) gs_3bus 1e-6%float 100 1%float
             Y st E).
    revert E. vm_compute. intros E. injection E as _ <-. reflexivity.
  - vm_compute in E. discriminate E.
Defined.

Lemma NR_trace_numbered_witness :
  match NRLoadFlow.solve (R := Reference.runtime) bus_data_3bus line_data_3bus 1e-6 20 with
  | Ok (V, trace) => numbered_from_1 trace
  | Raise _ => False
  end.
Proof.
  destruct (NRLoadFlow.solve bus_data_3bus line_data_3bus 1e-6 20) as [[V trace]|e] eqn:E.
  - exact (NR_trace_numbered (R := Reference.runtime) _ _ _ _ _ _ E).
  - vm_compute in E. discriminate E.
Defined.

Lemma GS_new_records_numbered_witness :
  match snd (GaussSeidel.solve (R := Reference.runtime) gs_3bus 1e-6 100 1) with
  | Ok (V, trace) =>
    exists new, trace = GaussSeidel.iter_data gs_3bus ++ new /\ numbered_from_1 new
  | Raise _ => False
  end.
Proof.
  destruct (GaussSeidel.solve gs_3bus 1e-6 100 1).2 as [[V trace]|e] eqn:E.
  - exact (GS_new_records_numbered (R := Reference.runtime) _ _ _ _ _ _ E).
  - vm_compute in E. discriminate E.
Defined.

Section SolveOutcome.
Context {R : Runtime}.

(** X11 -- what a call of the Newton-Raphson [solve] does: it raises what
    [build_ybus] raises; with an iteration limit of zero or less it builds
    the matrix and then raises UnboundLocalError from the closing report;
    otherwise it returns a pair. *)
Theorem NR_solve_outcome (bus_data : list Bus) (line_data : list Line)
    (tol : float) (max_iter : Z) :
  match NRLoadFlow.build_ybus (length bus_data) line_data with
  | Raise e => NRLoadFlow.solve bus_data line_data tol max_iter = Raise e
  | Ok _ =>
    if max_iter <=? 0
    then NRLoadFlow.solve bus_data line_data tol max_iter = Raise UnboundLocalError
    else exists V trace, NRLoadFlow.solve bus_data line_data tol max_iter = Ok (V, trace)
  end.
Proof.
  unfold NRLoadFlow.solve, NRLoadFlow.run.
  destruct (NRLoadFlow.build_ybus _ _) as [Yw|e]; simpl; [|done].
  destruct (Z.leb_spec max_iter 0) as [Hle|Hgt].
  - unfold py_range. replace (Z.to_nat max_iter) with 0%nat by lia. reflexivity.
  - destruct (NR_loop_report_defined Yw.1 (bus_type <$> bus_data)
                ((fun b => (bus_pg b - bus_pl b)%float) <$> bus_data)
                ((fun b => (bus_qg b - bus_ql b)%float) <$> bus_data)
                tol (Z.to_nat max_iter)
                {| NRLoadFlow.st_V := NRLoadFlow.initial_voltage <$> bus_data;
                   NRLoadFlow.st_iteration_data := [];
                   NRLoadFlow.st_converged := false;
                   NRLoadFlow.st_max_mis := None |} ltac:(lia)) as [Hc|[m Hm]];
      unfold py_range.
    + rewrite Hc. simpl. eauto.
    + rewrite Hm. case_match; simpl; eauto.
Qed.

(** X12 -- with an iteration limit of zero or less the Gauss-Seidel [solve]
    runs no sweep: it returns the initial voltages (the slack set-point and
    0.95 - 0.05j elsewhere) and the trace as it was, and [converged] stays
    false. *)
Theorem GS_no_iterations (self : GaussSeidel.t) (tol : float) (max_iter : Z)
    (alpha : float) (Y : matrix) :
  max_iter <= 0 ->
  GaussSeidel.build_ybus (length (GaussSeidel.bus_data self)) (GaussSeidel.line_data self)
  = Ok Y ->
  snd (GaussSeidel.solve self tol max_iter alpha)
  = Ok (GaussSeidel.initial_voltages (GaussSeidel.bus_data self), GaussSeidel.iter_data self)
  /\ GS_converged self tol max_iter alpha = Some false.
Proof.
  intros Hle Hbuild. unfold GS_converged, GaussSeidel.solve, GaussSeidel.run.
  rewrite Hbuild. simpl. unfold py_range.
  replace (Z.to_nat max_iter) with 0%nat by lia. by simpl.
Qed.
End SolveOutcome.

Lemma GS_no_iterations_witness :
  snd (GaussSeidel.solve (R := Reference.runtime) gs_3bus 1e-6 0 1)
  = Ok (GaussSeidel.initial_voltages (R := Reference.runtime) bus_data_3bus, [])
  /\ GS_converged (R := Reference.runtime) gs_3bus 1e-6 0 1 = Some false.
Proof.
  apply (GS_no_iterations (R := Reference.runtime) gs_3bus 1e-6%float 0 1%float Ybus_3bus).
  - lia.
  - vm_compute. reflexivity.
Defined.

Section ReactiveLimits.
Context {R : Runtime}.

Lemma ltb_neg_infinity (q : float) : (q <? neg_infinity)%float = false.
Proof.
  rewrite FloatAxioms.ltb_spec. destruct (Prim2SF q) as [[|]|[|]| |]; reflexivity.
Qed.

Lemma infinity_ltb (q : float) : (infinity <? q)%float = false.
Proof.
  rewrite FloatAxioms.ltb_spec. destruct (Prim2SF q) as [[|]|[|]| |]; reflexivity.
Qed.

Lemma np_clip_unbounded (q : float) : np_clip q neg_infinity infinity = q.
Proof.
  unfold np_clip, np_maximum, np_minimum.
  destruct (is_nan q) eqn:Hq; [by rewrite Hq|].
  change (is_nan neg_infinity) with false. cbv iota.
  rewrite ltb_neg_infinity, Hq.
  change (is_nan infinity) with false. cbv iota.
  by rewrite infinity_ltb.
Qed.

(** X13 -- with a bus table of fewer than ten columns (no Qmin and Qmax) the
    reactive power a PV bus is solved with is the estimate itself: the
    clipping to (-inf, +inf) changes nothing, not even a NaN. *)
Theorem GS_no_limit_columns_unclipped (self : GaussSeidel.t) (Y : matrix)
    (alpha : float) (i : nat) (V : list complex) :
  (GaussSeidel.bus_ncols self < 10)%nat ->
  (i < length (GaussSeidel.bus_data self))%nat ->
  GaussSeidel.pv_reactive (GaussSeidel.setup self Y alpha) i V
  = im (GaussSeidel.S_calc (GaussSeidel.setup self Y alpha) i V).
Proof.
  intros Hcols Hi. unfold GaussSeidel.pv_reactive.
  assert (GaussSeidel.s_Qmin (GaussSeidel.setup self Y alpha)
          = replicate (length (GaussSeidel.bus_data self)) neg_infinity) as ->.
  { unfold GaussSeidel.setup. cbn [GaussSeidel.s_Qmin].
    destruct (Nat.leb_spec 10 (GaussSeidel.bus_ncols self)); [lia|done]. }
  assert (GaussSeidel.s_Qmax (GaussSeidel.setup self Y alpha)
          = replicate (length (GaussSeidel.bus_data self)) infinity) as ->.
  { unfold GaussSeidel.setup. cbn [GaussSeidel.s_Qmax].
    destruct (Nat.leb_spec 10 (GaussSeidel.bus_ncols self)); [lia|done]. }
  rewrite !lookup_total_replicate_2 by done. apply np_clip_unbounded.
Qed.
End ReactiveLimits.

Lemma GS_no_limit_columns_unclipped_witness :
  GaussSeidel.pv_reactive (R := Reference.runtime)
    (GaussSeidel.setup gs_3bus Ybus_3bus 1) 1
    (GaussSeidel.initial_voltages (R := Reference.runtime) bus_data_3bus)
  = im (GaussSeidel.S_calc (R := Reference.runtime)
          (GaussSeidel.setup gs_3bus Ybus_3bus 1) 1
          (GaussSeidel.initial_voltages (R := Reference.runtime) bus_data_3bus)).
Proof.
  apply (GS_no_limit_columns_unclipped (R := Reference.runtime) gs_3bus Ybus_3bus 1%float
           1%nat); simpl; lia.
Defined.


(* ================================================================== *)
(** * The unknowns of Newton-Raphson: order and count *)

Section Unknowns.
Context {R : Runtime}.

Lemma indices_where_shift (p : Z -> bool) (g : nat -> nat) (types : list Z) :
  (filter (fun it : nat * Z => p it.2 = true) (imap (fun i t => (g i, t)) types)).*1
  = g <$> NRLoadFlow.indices_where p types.
Proof.
  unfold NRLoadFlow.indices_where, enumerate. revert g.
  induction types as [|t types IH]; intros g; [done|].
  rewrite !imap_cons, !filter_cons. simpl.
  change (imap ((fun i t0 => (g i, t0)) ∘ S) types)
    with (imap (fun i t0 => ((g ∘ S) i, t0)) types).
  change (imap (pair ∘ S) types) with (imap (fun i t0 => (S i, t0)) types).
  destruct (decide (p t = true)); rewrite ?fmap_cons; cbn [fst];
    by rewrite (IH (g ∘ S)), (IH S), (list_fmap_compose S g).
Qed.

Lemma indices_where_cons (p : Z -> bool) (t : Z) (types : list Z) :
  NRLoadFlow.indices_where p (t :: types)
  = (if p t then [0%nat] else []) ++ (S <$> NRLoadFlow.indices_where p types).
Proof.
  rewrite <- (indices_where_shift p S).
  unfold NRLoadFlow.indices_where, enumerate. rewrite imap_cons, filter_cons. simpl.
  destruct (decide (p t = true)) as [->|Hp]; [done|].
  by destruct (p t).
Qed.


Lemma indices_where_nil (p : Z -> bool) (types : list Z) :
  NRLoadFlow.indices_where p types = [] <->
  forall k t, types !! k = Some t -> p t = false.
Proof.
  split.
  - intros Hnil k t Hk. destruct (p t) eqn:Hp; [|done].
    assert (k ∈ NRLoadFlow.indices_where p types) as Hin
      by (apply elem_of_indices_where; eauto).
    rewrite Hnil in Hin. by apply elem_of_nil in Hin.
  - intros Hall. destruct (NRLoadFlow.indices_where p types) as [|k l] eqn:E; [done|].
    assert (k ∈ NRLoadFlow.indices_where p types) as Hin by (rewrite E; left).
    apply elem_of_indices_where in Hin as (t & Hk & Hp).
    rewrite (Hall k t Hk) in Hp. discriminate.
Qed.




Lemma mismatch_buses_length (types : list Z) :
  length (mismatch_buses types) = length (row_buses types).
Proof.
  unfold row_buses, mismatch_buses. induction types as [|t types IH]; [done|].
  rewrite !indices_where_cons, !length_app, !length_fmap in *.
  unfold NRLoadFlow.is_pv at 1, NRLoadFlow.is_pq at 1, NRLoadFlow.is_pv_or_pq at 1.
  destruct (Z.eqb_spec t 2) as [->|Hpv]; [|destruct (Z.eqb_spec t 3) as [->|Hpq]];
    simpl; lia.
Qed.

(** X15 -- the Jacobian is square and has one row for every entry of the
    mismatch vector: as many real-power equations as there are PV and PQ
    buses, and as many reactive-power equations as there are PQ buses. *)
Theorem NR_jacobian_matches_mismatch (Y : matrix) (V : list complex)
    (P_spec Q_spec : list float) (types : list Z) :
  let J := NRLoadFlow.build_jacobian_optimized Y V types in
  let n := length (NRLoadFlow.calc_power_mismatch Y V P_spec Q_spec types) in
  n = (length (mismatch_buses types)
       + length (NRLoadFlow.indices_where NRLoadFlow.is_pq types))%nat
  /\ length J = n
  /\ Forall (fun row => length row = n) J.
Proof.
  unfold NRLoadFlow.build_jacobian_optimized, NRLoadFlow.calc_power_mismatch,
    NRLoadFlow.power_calculation_vectorized. cbv zeta.
  rewrite !length_app, !length_fmap.
  fold (mismatch_buses types). fold (row_buses types).
  rewrite mismatch_buses_length.
  split; [done|]. split; [done|].
  apply Forall_app. split; apply Forall_fmap, Forall_forall; intros i _; simpl;
    by rewrite length_app, !length_fmap.
Qed.
End Unknowns.

(* ================================================================== *)
(** * One voltage for every bus *)

Section Lengths.
Context {R : Runtime}.

Lemma fold_left_length {A B} (f : list A -> B -> list A) (l : list B) (V : list A) :
  (forall V0 b, length (f V0 b) = length V0) ->
  length (fold_left f l V) = length V.
Proof.
  intros Hf. revert V. induction l as [|b l IH]; simpl; intros V; [done|].
  by rewrite IH, Hf.
Qed.

Lemma NR_update_voltages_length it dX types V :
  length (NRLoadFlow.update_voltages it dX types V) = length V.
Proof.
  unfold NRLoadFlow.update_voltages, NRLoadFlow.update_magnitudes, NRLoadFlow.update_angles.
  cbv zeta. rewrite !fold_left_length; [done| |];
    intros V0 [idx i]; by rewrite length_insert.
Qed.

Lemma NR_iteration_length Y types P_spec Q_spec tol it st :
  length (NRLoadFlow.st_V (NRLoadFlow.iteration Y types P_spec Q_spec tol it st).1)
  = length (NRLoadFlow.st_V st).
Proof.
  unfold NRLoadFlow.iteration. cbv zeta.
  destruct (length _ =? 0)%nat; simpl; [done|].
  destruct (NRLoadFlow.converged_test _ _ _); simpl; [done|].
  destruct (linalg_cond _); [|done].
  destruct (linalg_solve _ _); simpl; [|done].
  apply NR_update_voltages_length.
Qed.

Lemma GS_bus_step_length c V_prev s i :
  length (GaussSeidel.sw_V (GaussSeidel.bus_step c V_prev s i))
  = length (GaussSeidel.sw_V s).
Proof.
  unfold GaussSeidel.bus_step, GaussSeidel.update_pq, GaussSeidel.update_pv,
    GaussSeidel.reseed_pv. cbv zeta.
  repeat (case_match; simpl); by rewrite ?length_insert.
Qed.

Lemma GS_iteration_length c tol it st :
  length (GaussSeidel.st_V (GaussSeidel.iteration c tol it st).1)
  = length (GaussSeidel.st_V st).
Proof.
  assert (length (GaussSeidel.sw_V (GaussSeidel.sweep c (GaussSeidel.st_V st)))
          = length (GaussSeidel.st_V st)) as Hsweep.
  { unfold GaussSeidel.sweep.
    set (s0 := {| GaussSeidel.sw_V := GaussSeidel.st_V st |}).
    change (length (GaussSeidel.st_V st)) with (length (GaussSeidel.sw_V s0)) at 2.
    generalize s0 (seq 0 (length (GaussSeidel.st_V st))). intros s l. revert s.
    induction l as [|k l IH]; simpl; intros s; [done|].
    by rewrite IH, GS_bus_step_length. }
  unfold GaussSeidel.iteration. cbv zeta. by case_match.
Qed.

(** X16 -- the vector Newton-Raphson returns holds one voltage for every row
    of the bus table. *)
Theorem NR_one_voltage_per_bus (bus_data : list Bus) (line_data : list Line)
    (tol : float) (max_iter : Z) (V : list complex) (trace : list IterRecord) :
  NRLoadFlow.solve bus_data line_data tol max_iter = Ok (V, trace) ->
  length V = length bus_data.
Proof.
  unfold NRLoadFlow.solve, NRLoadFlow.run. intros Hsolve.
  apply bind_Ok in Hsolve as (st & Hrun & Hsolve).
  apply bind_Ok in Hsolve as (_ & _ & Hsolve). injection Hsolve as <- _.
  apply bind_Ok in Hrun as (Yw & _ & Hrun). simpl in Hrun. injection Hrun as <-.
  apply (for_loop_invariant (fun s => length (NRLoadFlow.st_V s) = length bus_data)).
  - intros it s0 <-. apply NR_iteration_length.
  - simpl. by rewrite length_fmap.
Qed.

(** X17 -- the vector Gauss-Seidel returns holds one voltage for every row of
    the bus table. *)
Theorem GS_one_voltage_per_bus (self : GaussSeidel.t) (tol : float) (max_iter : Z)
    (alpha : float) (V : list complex) (trace : list IterRecord) :
  snd (GaussSeidel.solve self tol max_iter alpha) = Ok (V, trace) ->
  length V = length (GaussSeidel.bus_data self).
Proof.
  unfold GaussSeidel.solve, GaussSeidel.run.
  destruct (GaussSeidel.build_ybus _ _) as [Y|e]; simpl; [|discriminate].
  intros Hsolve. injection Hsolve as <- _.
  apply (for_loop_invariant
           (fun s => length (GaussSeidel.st_V s) = length (GaussSeidel.bus_data self))).
  - intros it s0 <-. apply GS_iteration_length.
  - simpl. unfold GaussSeidel.initial_voltages. by rewrite length_fmap.
Qed.
End Lengths.

Lemma NR_one_voltage_per_bus_witness :
  match NRLoadFlow.solve (R := Reference.runtime) bus_data_3bus line_data_3bus 1e-6 20 with
  | Ok (V, trace) => length V = length bus_data_3bus
  | Raise _ => False
  end.
Proof.
  destruct (NRLoadFlow.solve bus_data_3bus line_data_3bus 1e-6 20) as [[V trace]|e] eqn:E.
  - exact (NR_one_voltage_per_bus (R := Reference.runtime) _ _ _ _ _ _ E).
  - vm_compute in E. discriminate E.
Defined.

Lemma GS_one_voltage_per_bus_witness :
  match snd (GaussSeidel.solve (R := Reference.runtime) gs_3bus 1e-6 100 1) with
  | Ok (V, trace) => length V = length (GaussSeidel.bus_data gs_3bus)
  | Raise _ => False
  end.
Proof.
  destruct (GaussSeidel.solve gs_3bus 1e-6 100 1).2 as [[V trace]|e] eqn:E.
  - exact (GS_one_voltage_per_bus (R := Reference.runtime) _ _ _ _ _ _ E).
  - vm_compute in E. discriminate E.
Defined.


(* ================================================================== *)
(** * Buses the loops never write *)

Section FixedBuses.
Context {R : Runtime}.

Lemma NR_not_unknown_index (types : list Z) (i k : nat) (t : Z) :
  types !! i = Some t -> t <> 2 -> t <> 3 ->
  k ∈ NRLoadFlow.indices_where NRLoadFlow.is_pv types
      ++ NRLoadFlow.indices_where NRLoadFlow.is_pq types
  \/ k ∈ NRLoadFlow.indices_where NRLoadFlow.is_pq types ->
  k <> i.
Proof.
  intros Hi H2 H3 Hk ->. rewrite elem_of_app, !elem_of_indices_where in Hk.
  unfold NRLoadFlow.is_pv, NRLoadFlow.is_pq in Hk.
  destruct Hk as [[Hk|Hk]|Hk]; destruct Hk as (t' & Ht & Hp);
    rewrite Hi in Ht; injection Ht as <-; lia.
Qed.

Lemma NR_update_voltages_frame it dX (types : list Z) (V : list complex) (i : nat) (t : Z) :
  types !! i = Some t -> t <> 2 -> t <> 3 ->
  NRLoadFlow.update_voltages it dX types V !! i = V !! i.
Proof.
  intros Hi H2 H3. unfold NRLoadFlow.update_voltages, NRLoadFlow.update_magnitudes,
    NRLoadFlow.update_angles.
  rewrite fold_left_frame.
  - apply fold_left_frame. intros V0 [idx k] Hin%elem_of_enumerate.
    apply list_lookup_insert_ne, (NR_not_unknown_index types i k t Hi H2 H3).
    left. apply list_elem_of_lookup. eauto.
  - intros V0 [idx k] Hin%elem_of_enumerate.
    apply list_lookup_insert_ne, (NR_not_unknown_index types i k t Hi H2 H3).
    right. apply list_elem_of_lookup. eauto.
Qed.

Lemma NR_iteration_frame Y types P_spec Q_spec tol it st (i : nat) (t : Z) :
  types !! i = Some t -> t <> 2 -> t <> 3 ->
  NRLoadFlow.st_V (NRLoadFlow.iteration Y types P_spec Q_spec tol it st).1 !! i
  = NRLoadFlow.st_V st !! i.
Proof.
  intros Hi H2 H3. unfold NRLoadFlow.iteration. cbv zeta.
  destruct (length _ =? 0)%nat; simpl; [done|].
  destruct (NRLoadFlow.converged_test _ _ _); simpl; [done|].
  destruct (linalg_cond _); [|done].
  destruct (linalg_solve _ _); simpl; [|done].
  by apply NR_update_voltages_frame with t.
Qed.

Lemma GS_bus_step_frame c V_prev s (k i : nat) (t : Z) :
  GaussSeidel.s_types c !! i = Some t -> t <> 2 -> t <> 3 ->
  GaussSeidel.sw_V (GaussSeidel.bus_step c V_prev s k) !! i = GaussSeidel.sw_V s !! i.
Proof.
  intros Hi H2 H3. unfold GaussSeidel.bus_step.
  destruct (Z.eqb_spec (GaussSeidel.s_types c !!! k) 1) as [H1|H1]; [done|]. simpl.
  destruct (Z.eqb_spec (GaussSeidel.s_types c !!! k) 3) as [Hpq|Hpq].
  { apply GS_update_pq_frame. intros ->.
    apply list_lookup_total_correct in Hi. congruence. }
  destruct (Z.eqb_spec (GaussSeidel.s_types c !!! k) 2) as [Hpv|Hpv]; [|done].
  apply GS_update_pv_frame. intros ->.
  apply list_lookup_total_correct in Hi. congruence.
Qed.

Lemma GS_iteration_frame c tol it st (i : nat) (t : Z) :
  GaussSeidel.s_types c !! i = Some t -> t <> 2 -> t <> 3 ->
  GaussSeidel.st_V (GaussSeidel.iteration c tol it st).1 !! i
  = GaussSeidel.st_V st !! i.
Proof.
  intros Hi H2 H3. unfold GaussSeidel.iteration.
  assert (GaussSeidel.sw_V (GaussSeidel.sweep c (GaussSeidel.st_V st)) !! i
          = GaussSeidel.st_V st !! i) as Hsweep.
  { unfold GaussSeidel.sweep.
    generalize (GaussSeidel.st_V st) at 1 as V_prev.
    intros V_prev.
    set (s0 := GaussSeidel.Build_SweepState _ _ _).
    change (GaussSeidel.st_V st !! i) with (GaussSeidel.sw_V s0 !! i).
    generalize s0. clear s0.
    induction (seq 0 (length (GaussSeidel.st_V st))) as [|k l IH]; simpl; intros s0; [done|].
    rewrite IH. by apply GS_bus_step_frame with t. }
  by case_match.
Qed.

(** X18 -- Newton-Raphson returns every bus that is neither PV nor PQ with
    the voltage it was initialised with: the slack bus with its set-point,
    a bus with any other type code with 0.95 - 0.05j. *)
Theorem NR_fixed_buses (bus_data : list Bus) (line_data : list Line)
    (tol : float) (max_iter : Z) (V : list complex) (trace : list IterRecord)
    (i : nat) (b : Bus) :
  NRLoadFlow.solve bus_data line_data tol max_iter = Ok (V, trace) ->
  bus_data !! i = Some b -> bus_type b <> 2 -> bus_type b <> 3 ->
  V !! i = Some (if bus_type b =? 1 then NRLoadFlow.slack_voltage b else flat_start).
Proof.
  unfold NRLoadFlow.solve, NRLoadFlow.run. intros Hsolve Hb H2 H3.
  apply bind_Ok in Hsolve as (st & Hrun & Hsolve).
  apply bind_Ok in Hsolve as (_ & _ & Hsolve). injection Hsolve as <- _.
  apply bind_Ok in Hrun as (Yw & _ & Hrun). simpl in Hrun. injection Hrun as <-.
  match goal with
  | |- _ = Some ?v =>
      apply (for_loop_invariant (fun s => NRLoadFlow.st_V s !! i = Some v))
  end.
  - intros it s0 <-. apply NR_iteration_frame with (bus_type b); [|done..].
    by rewrite list_lookup_fmap, Hb.
  - simpl. rewrite list_lookup_fmap, Hb. simpl. unfold NRLoadFlow.initial_voltage.
    destruct (bus_type b =? 1); [done|].
    destruct (Z.eqb_spec (bus_type b) 2); [done|]. done.
Qed.

(** X19 -- Gauss-Seidel returns every bus that is neither PV nor PQ with the
    voltage it was initialised with: the slack bus with its set-point, a
    bus with any other type code with 0.95 - 0.05j. *)
Theorem GS_fixed_buses (self : GaussSeidel.t) (tol : float) (max_iter : Z)
    (alpha : float) (V : list complex) (trace : list IterRecord) (i : nat) (b : Bus) :
  snd (GaussSeidel.solve self tol max_iter alpha) = Ok (V, trace) ->
  GaussSeidel.bus_data self !! i = Some b -> bus_type b <> 2 -> bus_type b <> 3 ->
  V !! i = Some (if bus_type b =? 1 then GaussSeidel.slack_voltage b else flat_start).
Proof.
  unfold GaussSeidel.solve, GaussSeidel.run. intros Hsolve Hb H2 H3.
  destruct (GaussSeidel.build_ybus _ _) as [Y|e]; simpl in Hsolve; [|discriminate].
  injection Hsolve as <- _.
  match goal with
  | |- _ = Some ?v =>
      apply (for_loop_invariant (fun s => GaussSeidel.st_V s !! i = Some v))
  end.
  - intros it s0 <-. apply GS_iteration_frame with (bus_type b); [|done..].
    simpl. by rewrite list_lookup_fmap, Hb.
  - simpl. unfold GaussSeidel.initial_voltages. by rewrite list_lookup_fmap, Hb.
Qed.
End FixedBuses.

Lemma NR_fixed_buses_witness :
  match NRLoadFlow.solve (R := Reference.runtime) bus_data_3bus line_data_3bus 1e-6 20 with
  | Ok (V, trace) =>
    V !! 0%nat
    = Some (NRLoadFlow.slack_voltage (R := Reference.runtime) (mk_bus 1 1 1.05 0 0 0 0 0))
  | Raise _ => False
  end.
Proof.
  destruct (NRLoadFlow.solve bus_data_3bus line_data_3bus 1e-6 20) as [[V trace]|e] eqn:E.
  - apply (NR_fixed_buses (R := Reference.runtime) _ _ _ _ _ _ 0%nat
             (mk_bus 1 1 1.05 0 0 0 0 0) E); [reflexivity|simpl; lia|simpl; lia].
  - vm_compute in E. discriminate E.
Defined.

Lemma GS_fixed_buses_witness :
  match snd (GaussSeidel.solve (R := Reference.runtime) gs_3bus 1e-6 100 1) with
  | Ok (V, trace) =>
    V !! 0%nat
    = Some (GaussSeidel.slack_voltage (R := Reference.runtime) (mk_bus 1 1 1.05 0 0 0 0 0))
  | Raise _ => False
  end.
Proof.
  destruct (GaussSeidel.solve gs_3bus 1e-6 100 1).2 as [[V trace]|e] eqn:E.
  - apply (GS_fixed_buses (R := Reference.runtime) _ _ _ _ _ _ 0%nat
             (mk_bus 1 1 1.05 0 0 0 0 0) E); [reflexivity|simpl; lia|simpl; lia].
  - vm_compute in E. discriminate E.
Defined.

Lemma GS_slack_only_network_witness :
  exists record,
    snd (GaussSeidel.solve (R := Reference.runtime)
           (GaussSeidel.init [mk_bus 1 1 1.05 0 0 0 0 0] 8 [] 1) 1e-6 100 1)
    = Ok ([GaussSeidel.slack_voltage (R := Reference.runtime) (mk_bus 1 1 1.05 0 0 0 0 0)],
          [record])
    /\ GS_converged (R := Reference.runtime)
         (GaussSeidel.init [mk_bus 1 1 1.05 0 0 0 0 0] 8 [] 1) 1e-6 100 1 = Some true.
Proof.
  apply (GS_slack_only_network (R := Reference.runtime) (mk_bus 1 1 1.05 0 0 0 0 0) 8
           1%float 1e-6%float 100 1%float).
  - reflexivity.
  - lia.
  - reflexivity.
Defined.

(* ================================================================== *)
(** * When the trace is empty *)

Section EmptyTrace.
Context {R : Runtime}.

Lemma NR_mismatch_nil Y V P_spec Q_spec (bus_data : list Bus) :
  NRLoadFlow.calc_power_mismatch Y V P_spec Q_spec (bus_type <$> bus_data) = []
  <-> ~ has_unknown bus_data.
Proof.
  unfold NRLoadFlow.calc_power_mismatch, NRLoadFlow.power_calculation_vectorized.
  cbv zeta. split.
  - intros Hnil (i & b & Hb & Ht).
    apply app_eq_nil in Hnil as [Hnil _]. apply fmap_nil_inv in Hnil.
    assert (i ∈ NRLoadFlow.indices_where NRLoadFlow.is_pv_or_pq (bus_type <$> bus_data))
      as Hin.
    { apply elem_of_indices_where. exists (bus_type b). rewrite list_lookup_fmap, Hb.
      split; [done|]. unfold NRLoadFlow.is_pv_or_pq.
      destruct Ht as [-> | ->]; reflexivity. }
    rewrite Hnil in Hin. by apply elem_of_nil in Hin.
  - intros Hno.
    assert (forall k t, (bus_type <$> bus_data) !! k = Some t ->
                        NRLoadFlow.is_pv_or_pq t = false) as Hall.
    { intros k t Hk. rewrite list_lookup_fmap in Hk.
      apply fmap_Some in Hk as (b & Hb & ->).
      unfold NRLoadFlow.is_pv_or_pq.
      destruct (Z.eqb_spec (bus_type b) 2) as [H2|H2]; [destruct Hno; exists k, b; auto|].
      destruct (Z.eqb_spec (bus_type b) 3) as [H3|H3]; [destruct Hno; exists k, b; auto|].
      done. }
    rewrite (proj2 (indices_where_nil _ _) Hall).
    assert (NRLoadFlow.indices_where NRLoadFlow.is_pq (bus_type <$> bus_data) = []) as ->;
      [|done].
    apply indices_where_nil. intros k t Hk. specialize (Hall k t Hk).
    unfold NRLoadFlow.is_pv_or_pq in Hall. unfold NRLoadFlow.is_pq.
    by apply orb_false_iff in Hall as [_ ?].
Qed.

(** X20 -- with an iteration limit of at least one, the trace Newton-Raphson
    returns is empty exactly when the table has no PV and no PQ bus: a table
    with an unknown always yields a first record. *)
Theorem NR_trace_empty_iff (bus_data : list Bus) (line_data : list Line)
    (tol : float) (max_iter : Z) (V : list complex) (trace : list IterRecord) :
  1 <= max_iter ->
  NRLoadFlow.solve bus_data line_data tol max_iter = Ok (V, trace) ->
  trace = [] <-> ~ has_unknown bus_data.
Proof.
  unfold NRLoadFlow.solve, NRLoadFlow.run. intros Hpos Hsolve.
  apply bind_Ok in Hsolve as (st & Hrun & Hsolve).
  apply bind_Ok in Hsolve as (_ & _ & Hsolve). injection Hsolve as _ <-.
  apply bind_Ok in Hrun as (Yw & _ & Hrun). simpl in Hrun. injection Hrun as <-.
  unfold py_range. destruct (Z.to_nat max_iter) as [|n] eqn:En; [lia|].
  cbn [seq for_loop].
  rewrite <- (NR_mismatch_nil Yw.1 (NRLoadFlow.initial_voltage <$> bus_data)
                ((fun b => (bus_pg b - bus_pl b)%float) <$> bus_data)
                ((fun b => (bus_qg b - bus_ql b)%float) <$> bus_data) bus_data).
  pose proof (NR_iteration_appends Yw.1 (bus_type <$> bus_data)
                ((fun b => (bus_pg b - bus_pl b)%float) <$> bus_data)
                ((fun b => (bus_qg b - bus_ql b)%float) <$> bus_data) tol 0
                {| NRLoadFlow.st_V := NRLoadFlow.initial_voltage <$> bus_data;
                   NRLoadFlow.st_iteration_data := [];
                   NRLoadFlow.st_converged := false;
                   NRLoadFlow.st_max_mis := None |}) as Happ.
  unfold NRLoadFlow.iteration in *. cbv zeta in *. cbn [NRLoadFlow.st_V] in *.
  destruct (length _ =? 0)%nat eqn:H0.
  - apply Nat.eqb_eq, length_zero_iff_nil in H0. by rewrite H0.
  - apply Nat.eqb_neq in H0.
    assert (forall s, NRLoadFlow.st_iteration_data s <> [] ->
              NRLoadFlow.st_iteration_data
                (for_loop (NRLoadFlow.iteration Yw.1 (bus_type <$> bus_data)
                   ((fun b => (bus_pg b - bus_pl b)%float) <$> bus_data)
                   ((fun b => (bus_qg b - bus_ql b)%float) <$> bus_data) tol)
                   (seq 1 n) s) <> []) as Hkeep.
    { intros s Hs.
      apply (for_loop_invariant (fun s => NRLoadFlow.st_iteration_data s <> []));
        [|done].
      intros it s0 Hs0.
      pose proof (NR_iteration_appends Yw.1 (bus_type <$> bus_data)
                    ((fun b => (bus_pg b - bus_pl b)%float) <$> bus_data)
                    ((fun b => (bus_qg b - bus_ql b)%float) <$> bus_data) tol it s0) as H1.
      destruct (NRLoadFlow.iteration _ _ _ _ _ _ s0) as [s1 [|]]; simpl.
      - destruct H1 as (r & -> & _). by destruct (NRLoadFlow.st_iteration_data s0).
      - destruct H1 as [->|(r & -> & _)]; [done|].
        by destruct (NRLoadFlow.st_iteration_data s0). }
    split; [|intros Hnil; by rewrite Hnil in H0].
    intros Hempty. exfalso. revert Hempty.
    destruct (NRLoadFlow.converged_test _ _ _); [simpl; discriminate|].
    destruct (linalg_cond _); [|simpl; discriminate].
    destruct (linalg_solve _ _); [|simpl; discriminate].
    apply Hkeep. simpl. discriminate.
Qed.

Lemma GS_iteration_data_nonempty c tol it st :
  GaussSeidel.st_iter_data (GaussSeidel.iteration c tol it st).1 <> [].
Proof.
  unfold GaussSeidel.iteration. cbv zeta.
  case_match; simpl; by destruct (GaussSeidel.st_iter_data st).
Qed.

Lemma GS_loop_data_nonempty c tol (its : list nat) st :
  its <> [] ->
  GaussSeidel.st_iter_data (for_loop (GaussSeidel.iteration c tol) its st) <> [].
Proof.
  destruct its as [|it its]; [done|]. intros _. simpl.
  pose proof (GS_iteration_data_nonempty c tol it st) as H0.
  destruct (GaussSeidel.iteration c tol it st) as [s1 [|]]; [|done].
  apply (for_loop_invariant (fun s => GaussSeidel.st_iter_data s <> [])); [|done].
  intros it' s0 _. apply GS_iteration_data_nonempty.
Qed.

(** X21 -- after a Gauss-Seidel [solve] that returned, [get_results_summary]
    answers 'No results available' exactly when no sweep was run (iteration
    limit of zero or less) on an instance that held no earlier record. *)
Theorem GS_summary_after_solve (self : GaussSeidel.t) (tol : float) (max_iter : Z)
    (alpha : float) (V : list complex) (trace : list IterRecord) :
  snd (GaussSeidel.solve self tol max_iter alpha) = Ok (V, trace) ->
  GS_no_results_available (fst (GaussSeidel.solve self tol max_iter alpha)) = true
  <-> max_iter <= 0 /\ GaussSeidel.iter_data self = [].
Proof.
  unfold GaussSeidel.solve, GaussSeidel.run.
  destruct (GaussSeidel.build_ybus _ _) as [Y|e]; simpl; [|discriminate].
  intros _. unfold GS_no_results_available. simpl. unfold py_range.
  destruct (Z.to_nat max_iter) as [|n] eqn:En.
  - simpl. destruct (GaussSeidel.iter_data self); split; try done; try lia.
    + intros _. split; [lia|done].
    + by intros [_ ?].
  - split; [|lia]. intros Hnil. exfalso. revert Hnil.
    match goal with
    | |- context [for_loop (GaussSeidel.iteration ?c tol) ?its ?s] =>
        pose proof (GS_loop_data_nonempty c tol its s ltac:(done)) as Hne
    end.
    by destruct (GaussSeidel.st_iter_data _).
Qed.
End EmptyTrace.

Lemma NR_trace_empty_iff_witness :
  match NRLoadFlow.solve (R := Reference.runtime) bus_data_3bus line_data_3bus 1e-6 20 with
  | Ok (V, trace) => trace = [] <-> ~ has_unknown bus_data_3bus
  | Raise _ => False
  end.
Proof.
  destruct (NRLoadFlow.solve bus_data_3bus line_data_3bus 1e-6 20) as [[V trace]|e] eqn:E.
  - apply (NR_trace_empty_iff (R := Reference.runtime) _ _ _ 20 _ _ ltac:(lia) E).
  - vm_compute in E. discriminate E.
Defined.

Lemma GS_summary_after_solve_witness :
  GS_no_results_available (fst (GaussSeidel.solve (R := Reference.runtime) gs_3bus 1e-6 0 1))
  = true
  <-> 0 <= 0 /\ GaussSeidel.iter_data gs_3bus = [].
Proof.
  apply (GS_summary_after_solve (R := Reference.runtime) gs_3bus 1e-6%float 0 1%float
           (GaussSeidel.initial_voltages (R := Reference.runtime) bus_data_3bus) []).
  vm_compute. reflexivity.
Defined.


(* ================================================================== *)
(** * The window: tables and [run_analysis] *)

Section Tables.



Lemma same_pair_sym (a b : Line) : GUI.same_pair a b = GUI.same_pair b a.
Proof.
  unfold GUI.same_pair.
  rewrite (Z.eqb_sym (line_from a) (line_from b)), (Z.eqb_sym (line_to a) (line_to b)),
    (Z.eqb_sym (line_from a) (line_to b)), (Z.eqb_sym (line_to a) (line_from b)).
  by destruct (_ =? _), (_ =? _), (_ =? _), (_ =? _).
Qed.

Lemma existsb_same_pair (line_data : list Line) (d l : Line) (i : nat) :
  existsb (fun line => GUI.same_pair line d) line_data = false ->
  line_data !! i = Some l -> GUI.same_pair l d = false.
Proof.
  intros Hex Hl. destruct (GUI.same_pair l d) eqn:Hsame; [|done].
  assert (existsb (fun line => GUI.same_pair line d) line_data = true) as Htrue.
  { apply existsb_exists. exists l. split; [|done].
    apply list_elem_of_In, list_elem_of_lookup. eauto. }
  congruence.
Qed.

(** X23 -- [add_line] keeps the line table simple: no line from a bus to
    itself, and no two lines between the same pair of buses in either
    direction. *)
Theorem GUI_add_line_simple (bus_data : list Bus) (line_data : list Line)
    (data : option Line) :
  simple_lines line_data ->
  simple_lines (GUI.add_line bus_data line_data data).1.
Proof.
  unfold GUI.add_line. intros Hsimple.
  destruct bus_data as [|b bs]; [done|].
  destruct data as [d|]; [|done].
  destruct (existsb _ line_data) eqn:Hex; [done|].
  destruct (Z.eqb_spec (line_from d) (line_to d)) as [Heq|Hne]; [done|]. simpl.
  destruct Hsimple as [Hloops Hpairs]. split.
  - apply Forall_app. split; [done|]. by apply Forall_singleton.
  - intros i j li lj Hi Hj Hij.
    destruct (decide (i < length line_data)%nat) as [Hil|Hil];
      destruct (decide (j < length line_data)%nat) as [Hjl|Hjl].
    + rewrite lookup_app_l in Hi, Hj by done. by apply (Hpairs i j).
    + rewrite lookup_app_l in Hi by done. rewrite lookup_app_r in Hj by lia.
      destruct (j - length line_data)%nat as [|k]; simpl in Hj; [|by destruct k].
      injection Hj as <-. by apply (existsb_same_pair line_data d li i).
    + rewrite lookup_app_l in Hj by done. rewrite lookup_app_r in Hi by lia.
      destruct (i - length line_data)%nat as [|k]; simpl in Hi; [|by destruct k].
      injection Hi as <-. rewrite same_pair_sym.
      by apply (existsb_same_pair line_data d lj j).
    + rewrite lookup_app_r in Hi, Hj by lia.
      destruct (i - length line_data)%nat as [|k] eqn:Ei; simpl in Hi; [|by destruct k].
      destruct (j - length line_data)%nat as [|k] eqn:Ej; simpl in Hj; [|by destruct k].
      lia.
Qed.
End Tables.


Lemma GUI_add_line_simple_witness :
  simple_lines
    (GUI.add_line bus_data_3bus
       [mk_line 1 2 0.02 0.06 0.06; mk_line 1 3 0.08 0.24 0.05]
       (Some (mk_line 2 3 0.06 0.18 0.04))).1
  /\ simple_lines
       (GUI.add_line bus_data_3bus
          [mk_line 1 2 0.02 0.06 0.06; mk_line 1 3 0.08 0.24 0.05]
          (Some (mk_line 3 1 0.08 0.24 0.05))).1.
Proof.
  assert (simple_lines [mk_line 1 2 0.02 0.06 0.06; mk_line 1 3 0.08 0.24 0.05])
    as Hsimple.
  { split.
    - repeat (apply Forall_cons; split; [simpl; lia|]). apply Forall_nil_2.
    - intros [|[|i]] [|[|j]] li lj Hi Hj Hij; simpl in Hi, Hj;
        try discriminate; try lia; injection Hi as <-; injection Hj as <-; reflexivity. }
  split.
  - apply (GUI_add_line_simple bus_data_3bus
             [mk_line 1 2 0.02 0.06 0.06; mk_line 1 3 0.08 0.24 0.05]
             (Some (mk_line 2 3 0.06 0.18 0.04)) Hsimple).
  - apply (GUI_add_line_simple bus_data_3bus
             [mk_line 1 2 0.02 0.06 0.06; mk_line 1 3 0.08 0.24 0.05]
             (Some (mk_line 3 1 0.08 0.24 0.05)) Hsimple).
Defined.

Section RunAnalysisFacts.
Context {R : Runtime}.
Variable display_results :
  list Bus -> list Line -> string -> list complex -> list IterRecord -> result unit.

Lemma slack_bus_None (bus_data : list Bus) :
  GUI.slack_bus bus_data = None <-> GUI.slack_count bus_data = 0%nat.
Proof.
  unfold GUI.slack_bus, GUI.slack_count.
  induction bus_data as [|b bs IH]; simpl; [done|].
  destruct (bus_type b =? 1); simpl; [|exact IH].
  split; discriminate.
Qed.

(** X24 -- the slack card of the dashboard reads 'Not Set' exactly when
    [run_analysis], given a bus and a line, refuses to run for want of a
    slack bus. *)
Theorem GUI_slack_card_agrees (b : Bus) (bs : list Bus) (l : Line) (ls : list Line)
    (method : string) :
  GUI.slack_bus (b :: bs) = None
  <-> GUI.run_analysis display_results (b :: bs) (l :: ls) method
      = GUI.Rejected GUI.NoSlack.
Proof.
  rewrite slack_bus_None. unfold GUI.run_analysis.
  destruct (GUI.slack_count (b :: bs)) as [|[|n]]; cbn [Nat.eqb Nat.ltb Nat.leb].
  - done.
  - split; [discriminate|]. by repeat case_match.
  - split; discriminate.
Qed.

(** X25 -- [run_analysis] never reports a run that did not converge: when
    Gauss-Seidel leaves its hundred sweeps with [converged] false and the
    results display, the window still ends in the state 'Converged', with
    the message 'Converged in 100 iterations'. *)
Theorem GUI_reports_converged_regardless (bus_data : list Bus) (line_data : list Line)
    (method : string) :
  String.eqb method "Newton-Raphson" = false ->
  GUI.slack_count bus_data = 1%nat ->
  line_data <> [] ->
  GS_converged (GaussSeidel.init bus_data 8 line_data 1) 1e-6 100 1 = Some false ->
  (forall V trace, display_results bus_data line_data method V trace = Ok tt) ->
  GUI.run_analysis display_results bus_data line_data method = GUI.Converged method 100.
Proof.
  intros Hmethod Hcount Hlines Hconv Hdisplay. unfold GUI.run_analysis.
  rewrite Hcount. cbn [Nat.eqb Nat.ltb Nat.leb].
  destruct bus_data as [|b bs]; [discriminate Hcount|].
  destruct line_data as [|l ls]; [done|].
  unfold GUI.run_solver. rewrite Hmethod.
  unfold GS_converged, GaussSeidel.run in Hconv.
  unfold GaussSeidel.solve, GaussSeidel.run, py_range in *.
  change 100%nat with (Z.to_nat 100). set (n := Z.to_nat 100) in *.
  destruct (GaussSeidel.build_ybus _ _) as [Y|e]; [|discriminate].
  cbn [bind snd fst] in *. apply (inj Some) in Hconv.
  rewrite Hdisplay. cbn [bind]. f_equal.
  match type of Hconv with
  | GaussSeidel.st_converged (for_loop (GaussSeidel.iteration ?c ?tol) _ ?s0) = false =>
      destruct (GS_loop_exhausted c tol n s0 eq_refl Hconv) as (new & Hdata & Hlen)
  end.
  rewrite Hdata. exact Hlen.
Qed.
End RunAnalysisFacts.

Lemma GUI_reports_converged_regardless_witness :
  GUI.run_analysis (R := Reference.runtime) (fun _ _ _ _ _ => Ok tt)
    bus_data_overload line_data_overload "Gauss-Seidel"
  = GUI.Converged "Gauss-Seidel" 100.
Proof.
  apply (GUI_reports_converged_regardless (R := Reference.runtime) (fun _ _ _ _ _ => Ok tt)
           bus_data_overload line_data_overload "Gauss-Seidel").
  - reflexivity.
  - reflexivity.
  - discriminate.
  - vm_compute. reflexivity.
  - reflexivity.
Defined.
